(** * goal-guy-0: the trial / phase control loop of the Sim driver

    A shallow embedding of [goal-guy-0.go]: the [Sim] struct, its
    training loop ([TrainTrial], [TrainEpoch], [Train]), the statistics
    ([TrialStats], [LogEpoch]) and the set-up functions ([Init],
    [OpenExtReps]).  The network engine (leabra), the random source
    (math/rand) and the CSV reader are collaborators of the program and
    enter through the interface [Collab]; etable's tables are modelled
    concretely, as columns of flat row-major values. *)

From Stdlib Require Import ZArith Bool.
From Stdlib Require Import Floats.SpecFloat.
From stdpp Require Import base option list gmap strings.

Open Scope Z_scope.

(** ** Go's [float32]: IEEE 754 binary32, round to nearest even *)

Module F32.
Definition prec : Z := 24.
Definition emax : Z := 128.

Definition add : spec_float → spec_float → spec_float := SFadd prec emax.
Definition sub : spec_float → spec_float → spec_float := SFsub prec emax.
Definition mul : spec_float → spec_float → spec_float := SFmul prec emax.
Definition div : spec_float → spec_float → spec_float := SFdiv prec emax.
Definition abs : spec_float → spec_float := SFabs.
Definition ltb : spec_float → spec_float → bool := SFltb.
Definition eqb : spec_float → spec_float → bool := SFeqb.

(** [x != y] of Go: true as soon as one side is a NaN. *)
Definition neb (x y : spec_float) : bool := negb (SFeqb x y).

(** [float32(n)] for an [int] n. *)
Definition of_int (n : Z) : spec_float := binary_normalize prec emax n 0 false.

Definition zero : spec_float := S754_zero false.
Definition one : spec_float := of_int 1.
(** The constant [0.5]. *)
Definition half : spec_float := S754_finite false 8388608 (-24).
End F32.

Abbreviation float32 := spec_float.

(** A [float64] of this program is always the conversion of a [float32]
    or of an [int] (the argument of [SetFloat1D]).  Both conversions are
    exact for the values at hand, and converting a widened [float32] back
    returns it; the value is kept with where it came from. *)
Inductive float64 : Type :=
  | F64_of_f32 (x : float32)
  | F64_of_int (n : Z).

Definition to_float32 (v : float64) : float32 :=
  match v with
  | F64_of_f32 x => x
  | F64_of_int n => F32.of_int n
  end.

(** [int64(v)]: truncation toward zero. *)
Definition to_int64 (v : float64) : Z :=
  match v with
  | F64_of_int n => n
  | F64_of_f32 (S754_finite s m e) =>
      let a := if 0 <=? e then Z.pos m * 2 ^ e else Z.pos m / 2 ^ (- e) in
      if s then - a else a
  | F64_of_f32 _ => 0
  end.

(** ** Go's [int] (64 bits, two's complement) *)

Definition wrap64 (z : Z) : Z := (z + 2 ^ 63) `mod` 2 ^ 64 - 2 ^ 63.
Definition int_add (a b : Z) : Z := wrap64 (a + b).
Definition int_mul (a b : Z) : Z := wrap64 (a * b).

(** ** Slices: indexing panics out of range *)

Definition in_range {A} (l : list A) (i : Z) : bool :=
  (0 <=? i) && (i <? Z.of_nat (length l)).

Definition slice_get {A} (l : list A) (i : Z) : option A :=
  if in_range l i then l !! Z.to_nat i else None.

Definition slice_set {A} (l : list A) (i : Z) (v : A) : option (list A) :=
  if in_range l i then Some (<[Z.to_nat i := v]> l) else None.

(** ** etable / etensor: a table of named columns

    A column is a tensor stored flat, row-major; [cells] is the number of
    values of one row (25 for the 5x5 patterns, 1 for a log column). *)

Inductive Tensor : Type :=
  | TFloat32 (cells : Z) (Values : list float32)
  | TInt64 (Values : list Z).

Record Table : Type := mkTable {
  Cols : gmap string Tensor;
  Rows : Z
}.

Definition NumRows (t : Table) : Z := Rows t.

(** [ColByName]: [None] is the nil the library returns for an unknown name. *)
Definition ColByName (t : Table) (nm : string) : option Tensor := Cols t !! nm.

(** [RowCellSize] returns the number of rows and the size of one row. *)
Definition RowCellSize (c : Tensor) : Z * Z :=
  match c with
  | TFloat32 cells vs =>
      (if cells =? 0 then 0 else Z.of_nat (length vs) / cells, cells)
  | TInt64 vs => (Z.of_nat (length vs), 1)
  end.

(** [SetFloat1D(off, val)]: [Values[off] = float32(val)] (or [int64(val)]). *)
Definition SetFloat1D (c : Tensor) (off : Z) (val : float64) : option Tensor :=
  match c with
  | TFloat32 cells vs => TFloat32 cells <$> slice_set vs off (to_float32 val)
  | TInt64 vs => TInt64 <$> slice_set vs off (to_int64 val)
  end.

(** [SubSpace(2, []int{row})]: the values of one row of a pattern column. *)
Definition SubSpace (c : Tensor) (row : Z) : option (list float32) :=
  match c with
  | TFloat32 cells vs =>
      if (0 <=? row) && (0 <=? cells)
         && ((row + 1) * cells <=? Z.of_nat (length vs))
      then Some (take (Z.to_nat cells) (drop (Z.to_nat (row * cells)) vs))
      else None
  | TInt64 _ => None
  end.

(** [resize n d l]: the first [n] values of [l], padded with [d]. *)
Definition resize_to {A} (n : nat) (d : A) (l : list A) : list A :=
  take n l ++ replicate (n - length l) d.

Definition Tensor_SetNumRows (rows : Z) (c : Tensor) : Tensor :=
  match c with
  | TFloat32 cells vs =>
      TFloat32 cells (resize_to (Z.to_nat (rows * cells)) F32.zero vs)
  | TInt64 vs => TInt64 (resize_to (Z.to_nat rows) 0 vs)
  end.

(** [SetNumRows]: every column gets that many rows; values that stay are
    kept, new rows are zero. *)
Definition SetNumRows (rows : Z) (t : Table) : Table :=
  if Rows t =? rows then t
  else mkTable (Tensor_SetNumRows rows <$> Cols t) rows.

Definition set_col (t : Table) (nm : string) (c : Tensor) : Table :=
  mkTable (<[nm := c]> (Cols t)) (Rows t).

(** ** Constants of the libraries *)

Module leabra.
(** [leabra.TimeScales], in the order of the library's enumeration. *)
Inductive TimeScales : Type :=
| Cycle | FastSpike | Quarter | Phase | BetaCycle | AlphaCycle
| ThetaCycle | Event | Trial | Sequence | Block | Epoch | Run | Expt
| Scene | Episode.

Definition rank (t : TimeScales) : Z :=
match t with
| Cycle => 0 | FastSpike => 1 | Quarter => 2 | Phase => 3
| BetaCycle => 4 | AlphaCycle => 5 | ThetaCycle => 6 | Event => 7
| Trial => 8 | Sequence => 9 | Block => 10 | Epoch => 11 | Run => 12
| Expt => 13 | Scene => 14 | Episode => 15
end.

Definition eqb (a b : TimeScales) : bool := rank a =? rank b.
End leabra.

Module emer.
Inductive LayerType : Type := Hidden | Input | Target | Compare.
End emer.

(** What [TrialStats] returns: its eight named results. *)
Record StatsResult : Type := mkStatsResult {
  gsse : float32; msse : float32; osse : float32;
  gavgsse : float32; mavgsse : float32; oavgsse : float32;
  motcosdiff : float32; outcosdiff : float32
}.

(** ** The history of a run

    Calls into the engine and the view, lines printed, and the results of
    [TrialStats] (which [TrainTrial] drops), in the order they happen. *)
Inductive Event : Type :=
  | EvInitExt
  | EvSetType (lay : string) (ty : emer.LayerType)
  | EvApplyExt (lay : string) (pat : list float32)
  | EvAlphaCycInit
  | EvCycle
  | EvQuarterFinal
  | EvDWt
  | EvWtFmDWt
  | EvStyleParams
  | EvInitWts
  | EvUpdateView
  | EvPlotEpcLog
  | EvPrintln (msg : string)
  | EvTook (epcs : Z)
  | EvTrialStats (alpha : Z) (res : StatsResult).

Definition is_DWt (e : Event) : bool :=
  match e with EvDWt => true | _ => false end.
Definition is_WtFmDWt (e : Event) : bool :=
  match e with EvWtFmDWt => true | _ => false end.
Definition is_QuarterFinal (e : Event) : bool :=
  match e with EvQuarterFinal => true | _ => false end.

(** Records that are no call into the engine and no statistics. *)
Definition is_report (e : Event) : bool :=
  match e with
  | EvUpdateView | EvPlotEpcLog | EvPrintln _ => true
  | _ => false
  end.

Definition count (p : Event → bool) (l : list Event) : nat :=
  length (List.filter p l).

(** ** The collaborators

    The network engine (a leabra network and its [Time]), the global
    source of math/rand, and the reader of the pattern file.  A layer is
    addressed by its name, as the program does through [LayerByName]. *)
Class Collab : Type := {
  Network : Type;
  LTime : Type;
  Rand : Type;
  (* leabra.Network *)
  Net_HasLayer : Network → string → bool;
  Net_InitExt : Network → Network;
  Net_AlphaCycInit : Network → Network;
  Net_Cycle : LTime → Network → Rand → Network * Rand;
  Net_QuarterFinal : LTime → Network → Network;
  Net_DWt : Network → Network;
  Net_WtFmDWt : Network → Network;
  Net_StyleParams : Network → Network;
  Net_InitWts : Network → Rand → Network * Rand;
  (* leabra.Layer *)
  Lay_SetType : string → emer.LayerType → Network → Network;
  Lay_ApplyExt : string → list float32 → Network → Network;
  Lay_UnitVals : Network → string → string → list float32 * option string;
  Lay_MSE : Network → string → float32 → float32 * float32;
  Lay_CosDiff_Cos : Network → string → float32;
  Lay_Neurons_ActM : Network → string → list float32;
  Lay_Pools0_ActMAvg : Network → string → option float32;
  (* leabra.Time *)
  Time_Reset : LTime → LTime;
  Time_AlphaCycStart : LTime → LTime;
  Time_CycleInc : LTime → LTime;
  Time_QuarterInc : LTime → LTime;
  Time_CycPerQtr : LTime → Z;
  (* math/rand and erand, on the global source *)
  rand_Seed : Z → Rand;
  rand_Perm : Z → Rand → list Z * Rand;
  erand_PermuteInts : list Z → Rand → list Z * Rand;
  (* etable.Table.OpenCSV: the table it leaves and the error, if any *)
  OpenCSV : string → Table → Table * option string
}.

Declare Scope go_scope.
Delimit Scope go_scope with go.

Section Driver.
Context `{C : Collab}.

(** ** The [Sim] struct

    The Go struct is flat; the statistics of the last epoch and the
    running sums are grouped here as [Stats] and [Sums].  The fields of
    the GUI ([Params], [PlotVals], [EpcPlotSvg]) and the three [GoalSum]
    fields, which no function reads or writes, are left out; [NetView]
    says whether the view pointer is non-nil. *)

Record Stats : Type := mkStats {
  EpcMotSSE : float32;
  EpcOutSSE : float32;
  EpcMotAvgSSE : float32;
  EpcOutAvgSSE : float32;
  EpcOutGoalPctErr : float32;
  EpcOutPredPctErr : float32;
  EpcOutGoalPctCor : float32;
  EpcOutPredPctCor : float32;
  EpcMotCosDiff : float32;
  EpcOutCosDiff : float32
}.

Definition set_EpcMotSSE (v : float32) (r : Stats) : Stats :=
    mkStats v (EpcOutSSE r) (EpcMotAvgSSE r) (EpcOutAvgSSE r)
    (EpcOutGoalPctErr r) (EpcOutPredPctErr r) (EpcOutGoalPctCor r)
    (EpcOutPredPctCor r) (EpcMotCosDiff r) (EpcOutCosDiff r).
Definition set_EpcOutSSE (v : float32) (r : Stats) : Stats :=
    mkStats (EpcMotSSE r) v (EpcMotAvgSSE r) (EpcOutAvgSSE r)
    (EpcOutGoalPctErr r) (EpcOutPredPctErr r) (EpcOutGoalPctCor r)
    (EpcOutPredPctCor r) (EpcMotCosDiff r) (EpcOutCosDiff r).
Definition set_EpcMotAvgSSE (v : float32) (r : Stats) : Stats :=
    mkStats (EpcMotSSE r) (EpcOutSSE r) v (EpcOutAvgSSE r) (EpcOutGoalPctErr
    r) (EpcOutPredPctErr r) (EpcOutGoalPctCor r) (EpcOutPredPctCor r)
    (EpcMotCosDiff r) (EpcOutCosDiff r).
Definition set_EpcOutAvgSSE (v : float32) (r : Stats) : Stats :=
    mkStats (EpcMotSSE r) (EpcOutSSE r) (EpcMotAvgSSE r) v (EpcOutGoalPctErr
    r) (EpcOutPredPctErr r) (EpcOutGoalPctCor r) (EpcOutPredPctCor r)
    (EpcMotCosDiff r) (EpcOutCosDiff r).
Definition set_EpcOutGoalPctErr (v : float32) (r : Stats) : Stats :=
    mkStats (EpcMotSSE r) (EpcOutSSE r) (EpcMotAvgSSE r) (EpcOutAvgSSE r) v
    (EpcOutPredPctErr r) (EpcOutGoalPctCor r) (EpcOutPredPctCor r)
    (EpcMotCosDiff r) (EpcOutCosDiff r).
Definition set_EpcOutPredPctErr (v : float32) (r : Stats) : Stats :=
    mkStats (EpcMotSSE r) (EpcOutSSE r) (EpcMotAvgSSE r) (EpcOutAvgSSE r)
    (EpcOutGoalPctErr r) v (EpcOutGoalPctCor r) (EpcOutPredPctCor r)
    (EpcMotCosDiff r) (EpcOutCosDiff r).
Definition set_EpcOutGoalPctCor (v : float32) (r : Stats) : Stats :=
    mkStats (EpcMotSSE r) (EpcOutSSE r) (EpcMotAvgSSE r) (EpcOutAvgSSE r)
    (EpcOutGoalPctErr r) (EpcOutPredPctErr r) v (EpcOutPredPctCor r)
    (EpcMotCosDiff r) (EpcOutCosDiff r).
Definition set_EpcOutPredPctCor (v : float32) (r : Stats) : Stats :=
    mkStats (EpcMotSSE r) (EpcOutSSE r) (EpcMotAvgSSE r) (EpcOutAvgSSE r)
    (EpcOutGoalPctErr r) (EpcOutPredPctErr r) (EpcOutGoalPctCor r) v
    (EpcMotCosDiff r) (EpcOutCosDiff r).
Definition set_EpcMotCosDiff (v : float32) (r : Stats) : Stats :=
    mkStats (EpcMotSSE r) (EpcOutSSE r) (EpcMotAvgSSE r) (EpcOutAvgSSE r)
    (EpcOutGoalPctErr r) (EpcOutPredPctErr r) (EpcOutGoalPctCor r)
    (EpcOutPredPctCor r) v (EpcOutCosDiff r).
Definition set_EpcOutCosDiff (v : float32) (r : Stats) : Stats :=
    mkStats (EpcMotSSE r) (EpcOutSSE r) (EpcMotAvgSSE r) (EpcOutAvgSSE r)
    (EpcOutGoalPctErr r) (EpcOutPredPctErr r) (EpcOutGoalPctCor r)
    (EpcOutPredPctCor r) (EpcMotCosDiff r) v.

Record Sums : Type := mkSums {
  MotSumSSE : float32;
  MotSumAvgSSE : float32;
  MotSumCosDiff : float32;
  OutSumSSE : float32;
  OutSumAvgSSE : float32;
  OutSumCosDiff : float32;
  OutGoalCntErr : Z;
  OutPredCntErr : Z
}.

Definition set_MotSumSSE (v : float32) (r : Sums) : Sums :=
    mkSums v (MotSumAvgSSE r) (MotSumCosDiff r) (OutSumSSE r) (OutSumAvgSSE
    r) (OutSumCosDiff r) (OutGoalCntErr r) (OutPredCntErr r).
Definition set_MotSumAvgSSE (v : float32) (r : Sums) : Sums :=
    mkSums (MotSumSSE r) v (MotSumCosDiff r) (OutSumSSE r) (OutSumAvgSSE r)
    (OutSumCosDiff r) (OutGoalCntErr r) (OutPredCntErr r).
Definition set_MotSumCosDiff (v : float32) (r : Sums) : Sums :=
    mkSums (MotSumSSE r) (MotSumAvgSSE r) v (OutSumSSE r) (OutSumAvgSSE r)
    (OutSumCosDiff r) (OutGoalCntErr r) (OutPredCntErr r).
Definition set_OutSumSSE (v : float32) (r : Sums) : Sums :=
    mkSums (MotSumSSE r) (MotSumAvgSSE r) (MotSumCosDiff r) v (OutSumAvgSSE
    r) (OutSumCosDiff r) (OutGoalCntErr r) (OutPredCntErr r).
Definition set_OutSumAvgSSE (v : float32) (r : Sums) : Sums :=
    mkSums (MotSumSSE r) (MotSumAvgSSE r) (MotSumCosDiff r) (OutSumSSE r) v
    (OutSumCosDiff r) (OutGoalCntErr r) (OutPredCntErr r).
Definition set_OutSumCosDiff (v : float32) (r : Sums) : Sums :=
    mkSums (MotSumSSE r) (MotSumAvgSSE r) (MotSumCosDiff r) (OutSumSSE r)
    (OutSumAvgSSE r) v (OutGoalCntErr r) (OutPredCntErr r).
Definition set_OutGoalCntErr (v : Z) (r : Sums) : Sums :=
    mkSums (MotSumSSE r) (MotSumAvgSSE r) (MotSumCosDiff r) (OutSumSSE r)
    (OutSumAvgSSE r) (OutSumCosDiff r) v (OutPredCntErr r).
Definition set_OutPredCntErr (v : Z) (r : Sums) : Sums :=
    mkSums (MotSumSSE r) (MotSumAvgSSE r) (MotSumCosDiff r) (OutSumSSE r)
    (OutSumAvgSSE r) (OutSumCosDiff r) (OutGoalCntErr r) v.

Record Sim : Type := mkSim {
  Net : Network;
  ExtReps : Table;
  EpcLog : Table;
  MaxEpcs : Z;
  Epoch : Z;
  Trial : Z;
  AlphaCycle : Z;
  Time : LTime;
  ViewOn : bool;
  TrainUpdt : leabra.TimeScales;
  TestUpdt : leabra.TimeScales;
  Plot : bool;
  Sequential : bool;
  Test : bool;
  Epc : Stats;
  Sum : Sums;
  Porder : list Z;
  NetView : bool;
  StopNow : bool;
  RndSeed : Z
}.

Definition set_Net (v : Network) (r : Sim) : Sim :=
    mkSim v (ExtReps r) (EpcLog r) (MaxEpcs r) (Epoch r) (Trial r)
    (AlphaCycle r) (Time r) (ViewOn r) (TrainUpdt r) (TestUpdt r) (Plot r)
    (Sequential r) (Test r) (Epc r) (Sum r) (Porder r) (NetView r) (StopNow
    r) (RndSeed r).
Definition set_ExtReps (v : Table) (r : Sim) : Sim :=
    mkSim (Net r) v (EpcLog r) (MaxEpcs r) (Epoch r) (Trial r) (AlphaCycle
    r) (Time r) (ViewOn r) (TrainUpdt r) (TestUpdt r) (Plot r) (Sequential
    r) (Test r) (Epc r) (Sum r) (Porder r) (NetView r) (StopNow r) (RndSeed
    r).
Definition set_EpcLog (v : Table) (r : Sim) : Sim :=
    mkSim (Net r) (ExtReps r) v (MaxEpcs r) (Epoch r) (Trial r) (AlphaCycle
    r) (Time r) (ViewOn r) (TrainUpdt r) (TestUpdt r) (Plot r) (Sequential
    r) (Test r) (Epc r) (Sum r) (Porder r) (NetView r) (StopNow r) (RndSeed
    r).
Definition set_MaxEpcs (v : Z) (r : Sim) : Sim :=
    mkSim (Net r) (ExtReps r) (EpcLog r) v (Epoch r) (Trial r) (AlphaCycle
    r) (Time r) (ViewOn r) (TrainUpdt r) (TestUpdt r) (Plot r) (Sequential
    r) (Test r) (Epc r) (Sum r) (Porder r) (NetView r) (StopNow r) (RndSeed
    r).
Definition set_Epoch (v : Z) (r : Sim) : Sim :=
    mkSim (Net r) (ExtReps r) (EpcLog r) (MaxEpcs r) v (Trial r) (AlphaCycle
    r) (Time r) (ViewOn r) (TrainUpdt r) (TestUpdt r) (Plot r) (Sequential
    r) (Test r) (Epc r) (Sum r) (Porder r) (NetView r) (StopNow r) (RndSeed
    r).
Definition set_Trial (v : Z) (r : Sim) : Sim :=
    mkSim (Net r) (ExtReps r) (EpcLog r) (MaxEpcs r) (Epoch r) v (AlphaCycle
    r) (Time r) (ViewOn r) (TrainUpdt r) (TestUpdt r) (Plot r) (Sequential
    r) (Test r) (Epc r) (Sum r) (Porder r) (NetView r) (StopNow r) (RndSeed
    r).
Definition set_AlphaCycle (v : Z) (r : Sim) : Sim :=
    mkSim (Net r) (ExtReps r) (EpcLog r) (MaxEpcs r) (Epoch r) (Trial r) v
    (Time r) (ViewOn r) (TrainUpdt r) (TestUpdt r) (Plot r) (Sequential r)
    (Test r) (Epc r) (Sum r) (Porder r) (NetView r) (StopNow r) (RndSeed r).
Definition set_Time (v : LTime) (r : Sim) : Sim :=
    mkSim (Net r) (ExtReps r) (EpcLog r) (MaxEpcs r) (Epoch r) (Trial r)
    (AlphaCycle r) v (ViewOn r) (TrainUpdt r) (TestUpdt r) (Plot r)
    (Sequential r) (Test r) (Epc r) (Sum r) (Porder r) (NetView r) (StopNow
    r) (RndSeed r).
Definition set_Plot (v : bool) (r : Sim) : Sim :=
    mkSim (Net r) (ExtReps r) (EpcLog r) (MaxEpcs r) (Epoch r) (Trial r)
    (AlphaCycle r) (Time r) (ViewOn r) (TrainUpdt r) (TestUpdt r) v
    (Sequential r) (Test r) (Epc r) (Sum r) (Porder r) (NetView r) (StopNow
    r) (RndSeed r).
Definition set_Sequential (v : bool) (r : Sim) : Sim :=
    mkSim (Net r) (ExtReps r) (EpcLog r) (MaxEpcs r) (Epoch r) (Trial r)
    (AlphaCycle r) (Time r) (ViewOn r) (TrainUpdt r) (TestUpdt r) (Plot r) v
    (Test r) (Epc r) (Sum r) (Porder r) (NetView r) (StopNow r) (RndSeed r).
Definition set_Test (v : bool) (r : Sim) : Sim :=
    mkSim (Net r) (ExtReps r) (EpcLog r) (MaxEpcs r) (Epoch r) (Trial r)
    (AlphaCycle r) (Time r) (ViewOn r) (TrainUpdt r) (TestUpdt r) (Plot r)
    (Sequential r) v (Epc r) (Sum r) (Porder r) (NetView r) (StopNow r)
    (RndSeed r).
Definition set_Epc (v : Stats) (r : Sim) : Sim :=
    mkSim (Net r) (ExtReps r) (EpcLog r) (MaxEpcs r) (Epoch r) (Trial r)
    (AlphaCycle r) (Time r) (ViewOn r) (TrainUpdt r) (TestUpdt r) (Plot r)
    (Sequential r) (Test r) v (Sum r) (Porder r) (NetView r) (StopNow r)
    (RndSeed r).
Definition set_Sum (v : Sums) (r : Sim) : Sim :=
    mkSim (Net r) (ExtReps r) (EpcLog r) (MaxEpcs r) (Epoch r) (Trial r)
    (AlphaCycle r) (Time r) (ViewOn r) (TrainUpdt r) (TestUpdt r) (Plot r)
    (Sequential r) (Test r) (Epc r) v (Porder r) (NetView r) (StopNow r)
    (RndSeed r).
Definition set_Porder (v : list Z) (r : Sim) : Sim :=
    mkSim (Net r) (ExtReps r) (EpcLog r) (MaxEpcs r) (Epoch r) (Trial r)
    (AlphaCycle r) (Time r) (ViewOn r) (TrainUpdt r) (TestUpdt r) (Plot r)
    (Sequential r) (Test r) (Epc r) (Sum r) v (NetView r) (StopNow r)
    (RndSeed r).
Definition set_StopNow (v : bool) (r : Sim) : Sim :=
    mkSim (Net r) (ExtReps r) (EpcLog r) (MaxEpcs r) (Epoch r) (Trial r)
    (AlphaCycle r) (Time r) (ViewOn r) (TrainUpdt r) (TestUpdt r) (Plot r)
    (Sequential r) (Test r) (Epc r) (Sum r) (Porder r) (NetView r) v
    (RndSeed r).
Definition set_RndSeed (v : Z) (r : Sim) : Sim :=
    mkSim (Net r) (ExtReps r) (EpcLog r) (MaxEpcs r) (Epoch r) (Trial r)
    (AlphaCycle r) (Time r) (ViewOn r) (TrainUpdt r) (TestUpdt r) (Plot r)
    (Sequential r) (Test r) (Epc r) (Sum r) (Porder r) (NetView r) (StopNow
    r) v.

(** ** The state of a run

    Besides the [Sim] struct: the global random source, the history, and
    the stop request of the GUI goroutine that has not landed yet
    ([pending = Some k]: [Stop()] runs after [k] more steps of the loop). *)
Record World : Type := mkWorld {
  ss : Sim;
  rnd : Rand;
  hist : list Event;
  pending : option nat
}.

Definition set_ss (v : Sim) (w : World) : World :=
  mkWorld v (rnd w) (hist w) (pending w).
Definition set_pending (v : option nat) (w : World) : World :=
  mkWorld (ss w) (rnd w) (hist w) v.

(** [Stop]: [ss.StopNow = true]. *)
Definition Stop (s : Sim) : Sim := set_StopNow true s.

Definition due (p : option nat) : bool :=
  match p with Some O => true | _ => false end.

(** One step of the other goroutine: a request that is due lands. *)
Definition land (w : World) : World :=
  mkWorld (set_StopNow (StopNow (ss w) || due (pending w)) (ss w))
          (rnd w) (hist w)
          (match pending w with Some (S k) => Some k | _ => None end).

(** ** Results: a run-time panic ends the program *)

Inductive Panic : Type :=
  | IndexOutOfRange      (* index out of range *)
  | NilDereference       (* method call through a nil interface or pointer *)
  | NilConversion        (* type assertion on nil or on another type *)
  | NegativeLen          (* make with a negative length *)
  | OutOfFuel.           (* not a panic: the model's loop bound was reached *)

Inductive Res (A : Type) : Type :=
  | Ok (a : A) (w : World)
  | Crash (p : Panic).
Arguments Ok {A} a w.
Arguments Crash {A} p.

Definition M (A : Type) : Type := World → Res A.

Definition ret {A} (a : A) : M A := λ w, Ok a w.

(** Sequencing; the other goroutine may act between any two steps. *)
Definition bind {A B} (m : M A) (f : A → M B) : M B :=
  λ w, match m w with
       | Ok a w' => f a (land w')
       | Crash p => Crash p
       end.

Notation "x <- m ;; k" := (bind m (λ x, k))
  (at level 100, m at next level, right associativity) : go_scope.
Notation "m ;; k" := (bind m (λ _, k))
  (at level 100, right associativity) : go_scope.
Open Scope go_scope.

Definition panic {A} (p : Panic) : M A := λ _, Crash p.
Definition gets {A} (f : Sim → A) : M A := λ w, Ok (f (ss w)) w.
Definition upd (f : Sim → Sim) : M unit := λ w, Ok tt (set_ss (f (ss w)) w).
Definition emit (e : Event) : M unit :=
  λ w, Ok tt (mkWorld (ss w) (rnd w) (hist w ++ [e]) (pending w)).
Definition when (b : bool) (m : M unit) : M unit := if b then m else ret tt.

Definition unwrap {A} (p : Panic) (o : option A) : M A :=
  match o with Some a => ret a | None => panic p end.

(** [for i := 0; i < n; i++ { body }] *)
Fixpoint for_from (n : nat) (i : Z) (body : Z → M unit) : M unit :=
  match n with
  | O => ret tt
  | S k => body i ;; for_from k (i + 1) body
  end.
Definition for_range (n : Z) (body : Z → M unit) : M unit :=
  for_from (Z.to_nat n) 0 body.

(** [for i := range l { body }], with [l[i]] at hand. *)
Fixpoint range_from {A} (l : list A) (i : Z) (body : Z → A → M unit) : M unit :=
  match l with
  | [] => ret tt
  | x :: l' => body i x ;; range_from l' (i + 1) body
  end.
Definition range_over {A} (l : list A) (body : Z → A → M unit) : M unit :=
  range_from l 0 body.

(** *** Calls into the collaborators *)

Definition net_call (f : Network → Network) (e : Event) : M unit :=
  upd (λ s, set_Net (f (Net s)) s) ;; emit e.

(** A step that draws from the global random source. *)
Definition with_rand {A} (f : Sim → Rand → A * Rand) : M A :=
  λ w, let '(a, r) := f (ss w) (rnd w) in
       Ok a (mkWorld (ss w) r (hist w) (pending w)).

Definition net_rand_call (f : Sim → Rand → Network * Rand) (e : Event)
    : M unit :=
  n <- with_rand f ;;
  upd (set_Net n) ;;
  emit e.

(** [ss.Net.LayerByName(nm)], asserted to be a [*leabra.Layer]. *)
Definition LayerByName (nm : string) : M string :=
  has <- gets (λ s, Net_HasLayer (Net s) nm) ;;
  if has then ret nm else panic NilConversion.

(** [tbl.ColByName(nm)], asserted to be a [*etensor.Float32]. *)
Definition ColFloat32 (tbl : Table) (nm : string) : M Tensor :=
  match ColByName tbl nm with
  | Some (TFloat32 cells vs) => ret (TFloat32 cells vs)
  | _ => panic NilConversion
  end.

(** [lay.ApplyExt(t)]; [t] is nil when [SubSpace] gave an error. *)
Definition ApplyExt (lay : string) (t : option (list float32)) : M unit :=
  pat <- unwrap NilDereference t ;;
  net_call (Lay_ApplyExt lay pat) (EvApplyExt lay pat).

Definition SetType (lay : string) (ty : emer.LayerType) : M unit :=
  net_call (Lay_SetType lay ty) (EvSetType lay ty).

(** The two tables of the [Sim]; a column is reached through its table. *)
Inductive TableId : Type := TExtReps | TEpcLog.

Definition table_of (t : TableId) (s : Sim) : Table :=
  match t with TExtReps => ExtReps s | TEpcLog => EpcLog s end.
Definition set_table (t : TableId) (v : Table) (s : Sim) : Sim :=
  match t with TExtReps => set_ExtReps v s | TEpcLog => set_EpcLog v s end.

(** [tbl.ColByName(nm).RowCellSize()] *)
Definition Col_RowCellSize (t : TableId) (nm : string) : M (Z * Z) :=
  c <- gets (λ s, ColByName (table_of t s) nm) ;;
  c <- unwrap NilDereference c ;;
  ret (RowCellSize c).

(** [tbl.ColByName(nm).SetFloat1D(off, val)]: the column is changed in place. *)
Definition Col_SetFloat1D (t : TableId) (nm : string) (off : Z) (val : float64)
    : M unit :=
  c <- gets (λ s, ColByName (table_of t s) nm) ;;
  c <- unwrap NilDereference c ;;
  c' <- unwrap IndexOutOfRange (SetFloat1D c off val) ;;
  upd (λ s, set_table t (set_col (table_of t s) nm c') s).

Definition upd_Sum (f : Sums → Sums) : M unit := upd (λ s, set_Sum (f (Sum s)) s).
Definition upd_Epc (f : Stats → Stats) : M unit := upd (λ s, set_Epc (f (Epc s)) s).

(** ** The program *)

(** The lines the program prints. *)
Definition msg_ApplyInputs_range : string :=
  "AlphaCycle appears to be out-of-range".
Definition msg_units_mismatch : string :=
  "Number of neuron-units does not match between Goal and Outcome layers".
Definition msg_TrialStats_range : string :=
  "TrialStats says AlphaCycle appears to be out-of-range".

(** [UpdateView] updates the NetView, when there is one. *)
Definition UpdateView : M unit :=
  nv <- gets NetView ;;
  when nv (emit EvUpdateView).

(** [AlphaCyc] runs one alpha-trial (4 quarters) of processing; if
    [train], [DWt] and [WtFmDWt] are called.  The bound of the inner loop
    is read once per quarter: neither [Cycle] nor [CycleInc] assigns
    [CycPerQtr]. *)
Definition AlphaCyc (train : bool) : M unit :=
  viewUpdt <- gets TrainUpdt ;;
  viewUpdt <- (if negb train then gets TestUpdt else ret viewUpdt) ;;
  net_call Net_AlphaCycInit EvAlphaCycInit ;;
  upd (λ s, set_Time (Time_AlphaCycStart (Time s)) s) ;;
  for_range 4 (λ qtr,
    cpq <- gets (λ s, Time_CycPerQtr (Time s)) ;;
    for_range cpq (λ cyc,
      net_rand_call (λ s, Net_Cycle (Time s) (Net s)) EvCycle ;;
      upd (λ s, set_Time (Time_CycleInc (Time s)) s) ;;
      viewOn <- gets ViewOn ;;
      when viewOn
        match viewUpdt with
        | leabra.Cycle => UpdateView
        | leabra.FastSpike =>
            when (Z.rem (int_add cyc 1) 10 =? 0) UpdateView
        | _ => ret tt
        end) ;;
    upd (λ s, set_Net (Net_QuarterFinal (Time s) (Net s)) s) ;;
    emit EvQuarterFinal ;;
    upd (λ s, set_Time (Time_QuarterInc (Time s)) s) ;;
    viewOn <- gets ViewOn ;;
    when viewOn
      match viewUpdt with
      | leabra.Quarter => UpdateView
      | leabra.Phase => when (2 <=? qtr) UpdateView
      | _ => ret tt
      end) ;;
  when train (net_call Net_DWt EvDWt ;; net_call Net_WtFmDWt EvWtFmDWt) ;;
  viewOn <- gets ViewOn ;;
  when (viewOn && leabra.eqb viewUpdt leabra.AlphaCycle) UpdateView.

(** [ApplyInputs] applies input patterns from the given row of the given
    table, according to [ss.AlphaCycle]. *)
Definition ApplyInputs (extreps : Table) (row : Z) : M unit :=
  net_call Net_InitExt EvInitExt ;;
  contextLay <- LayerByName "Context" ;;
  goalLay <- LayerByName "Goal" ;;
  motorLay <- LayerByName "Motor" ;;
  outcomeLay <- LayerByName "Outcome" ;;
  contextExtReps <- ColFloat32 extreps contextLay ;;
  goalExtReps <- ColFloat32 extreps goalLay ;;
  motorExtReps <- ColFloat32 extreps motorLay ;;
  outcomeExtReps <- ColFloat32 extreps outcomeLay ;;
  ac <- gets AlphaCycle ;;
  if ac =? 0 then
    SetType goalLay emer.Hidden ;;
    SetType motorLay emer.Hidden ;;
    SetType outcomeLay emer.Target ;;
    let c := SubSpace contextExtReps row in
    let o := SubSpace outcomeExtReps row in
    ApplyExt contextLay c ;;
    ApplyExt outcomeLay o
  else if ac =? 1 then
    SetType goalLay emer.Input ;;
    SetType motorLay emer.Target ;;
    SetType outcomeLay emer.Hidden ;;
    let g := SubSpace goalExtReps row in
    let o := SubSpace outcomeExtReps row in
    let g := o in
    let m := SubSpace motorExtReps row in
    ApplyExt goalLay g ;;
    ApplyExt motorLay m
  else
    emit (EvPrintln msg_ApplyInputs_range).

(** The loop of [TrialStats] over the units of the Goal layer:
    [goal] and [outcome] are the [ActM] of the two layers' neurons. *)
Fixpoint oge_loop (tol : float32) (goal : list float32) (ni : Z)
    (outcome : list float32) (oge : float32) : option float32 :=
  match goal with
  | [] => Some oge
  | ng :: goal' =>
      match slice_get outcome ni with
      | None => None
      | Some no =>
          let d := F32.sub ng no in
          if F32.ltb (F32.abs d) tol
          then oge_loop tol goal' (ni + 1) outcome oge
          else oge_loop tol goal' (ni + 1) outcome (F32.add oge (F32.mul d d))
      end
  end.

Definition no_stats : StatsResult :=
  mkStatsResult F32.zero F32.zero F32.zero F32.zero F32.zero F32.zero
                F32.zero F32.zero.

(** [TrialStats] computes the trial-level statistics and adds them to
    the epoch accumulators if [accum] is true. *)
Definition TrialStats (accum : bool) : M StatsResult :=
  goalLay <- LayerByName "Goal" ;;
  motorLay <- LayerByName "Motor" ;;
  outcomeLay <- LayerByName "Outcome" ;;
  ac <- gets AlphaCycle ;;
  res <- (if ac =? 0 then
      g <- gets (λ s, Lay_MSE (Net s) goalLay F32.half) ;;
      o <- gets (λ s, Lay_MSE (Net s) outcomeLay F32.half) ;;
      outcos <- gets (λ s, Lay_CosDiff_Cos (Net s) outcomeLay) ;;
      when accum (
        upd_Sum (λ a, set_OutSumSSE (F32.add (OutSumSSE a) o.1) a) ;;
        upd_Sum (λ a, set_OutSumAvgSSE (F32.add (OutSumAvgSSE a) o.2) a) ;;
        upd_Sum (λ a, set_OutSumCosDiff (F32.add (OutSumCosDiff a) outcos) a) ;;
        when (F32.neb o.1 F32.zero)
          (upd_Sum (λ a, set_OutPredCntErr (int_add (OutPredCntErr a) 1) a))) ;;
      let tol := F32.half in
      goalN <- gets (λ s, Lay_Neurons_ActM (Net s) goalLay) ;;
      outcomeN <- gets (λ s, Lay_Neurons_ActM (Net s) outcomeLay) ;;
      let nng := Z.of_nat (length goalN) in
      let nno := Z.of_nat (length outcomeN) in
      when (negb (nng =? nno)) (emit (EvPrintln msg_units_mismatch)) ;;
      oge <- unwrap IndexOutOfRange (oge_loop tol goalN 0 outcomeN F32.zero) ;;
      when (F32.neb oge F32.zero)
        (upd_Sum (λ a, set_OutGoalCntErr (int_add (OutGoalCntErr a) 1) a)) ;;
      ret (mkStatsResult g.1 F32.zero o.1 g.2 F32.zero o.2 F32.zero outcos)
    else if ac =? 1 then
      m <- gets (λ s, Lay_MSE (Net s) motorLay F32.half) ;;
      motcos <- gets (λ s, Lay_CosDiff_Cos (Net s) motorLay) ;;
      when accum (
        upd_Sum (λ a, set_MotSumSSE (F32.add (MotSumSSE a) m.1) a) ;;
        upd_Sum (λ a, set_MotSumAvgSSE (F32.add (MotSumAvgSSE a) m.2) a) ;;
        upd_Sum (λ a, set_MotSumCosDiff (F32.add (MotSumCosDiff a) motcos) a)) ;;
      ret (mkStatsResult F32.zero m.1 F32.zero F32.zero m.2 F32.zero motcos
                         F32.zero)
    else
      emit (EvPrintln msg_TrialStats_range) ;;
      ret no_stats) ;;
  emit (EvTrialStats ac res) ;;
  ret res.

(** [erand.PermuteInts(ss.Porder)]: the order is shuffled in place. *)
Definition PermuteInts_Porder : M unit :=
  l <- with_rand (λ s, erand_PermuteInts (Porder s)) ;;
  upd (set_Porder l).

(** [EpochInc] increments counters after one epoch of processing and
    draws a new order (the function itself has no caller; [TrainTrial]
    has the same three lines). *)
Definition EpochInc : M unit :=
  upd (set_Trial 0) ;;
  upd (λ s, set_Epoch (int_add (Epoch s) 1) s) ;;
  PermuteInts_Porder.

(** [lay.Pools[0].ActAvg.ActMAvg] *)
Definition ActMAvg (lay : string) : M float32 :=
  o <- gets (λ s, Lay_Pools0_ActMAvg (Net s) lay) ;;
  unwrap IndexOutOfRange o.

Definition log_f32 (col : string) (epc : Z) (v : float32) : M unit :=
  Col_SetFloat1D TEpcLog col epc (F64_of_f32 v).
Definition log_int (col : string) (epc : Z) (n : Z) : M unit :=
  Col_SetFloat1D TEpcLog col epc (F64_of_int n).

(** [LogEpoch] adds data from the current epoch to the EpochLog table;
    it computes the epoch averages prior to logging.  The epoch counter
    is assumed to not have yet been incremented. *)
Definition LogEpoch : M unit :=
  upd (λ s, set_EpcLog (SetNumRows (int_add (Epoch s) 1) (EpcLog s)) s) ;;
  contextLay <- LayerByName "Context" ;;
  goalLay <- LayerByName "Goal" ;;
  motorLay <- LayerByName "Motor" ;;
  outcomeLay <- LayerByName "Outcome" ;;
  np <- gets (λ s, F32.of_int (NumRows (ExtReps s))) ;;
  upd (λ s, set_Epc (set_EpcMotSSE (F32.div (MotSumSSE (Sum s)) np) (Epc s)) s) ;;
  upd (λ s, set_Epc (set_EpcOutSSE (F32.div (OutSumSSE (Sum s)) np) (Epc s)) s) ;;
  upd_Sum (set_MotSumSSE F32.zero) ;;
  upd_Sum (set_OutSumSSE F32.zero) ;;
  upd (λ s, set_Epc (set_EpcMotAvgSSE (F32.div (MotSumAvgSSE (Sum s)) np) (Epc s)) s) ;;
  upd (λ s, set_Epc (set_EpcOutAvgSSE (F32.div (OutSumAvgSSE (Sum s)) np) (Epc s)) s) ;;
  upd_Sum (set_MotSumAvgSSE F32.zero) ;;
  upd_Sum (set_OutSumAvgSSE F32.zero) ;;
  upd (λ s, set_Epc (set_EpcOutGoalPctErr
              (F32.div (F32.of_int (OutGoalCntErr (Sum s))) np) (Epc s)) s) ;;
  upd (λ s, set_Epc (set_EpcOutPredPctErr
              (F32.div (F32.of_int (OutPredCntErr (Sum s))) np) (Epc s)) s) ;;
  upd_Sum (set_OutGoalCntErr 0) ;;
  upd_Sum (set_OutPredCntErr 0) ;;
  upd_Epc (λ e, set_EpcOutGoalPctCor (F32.sub F32.one (EpcOutGoalPctErr e)) e) ;;
  upd_Epc (λ e, set_EpcOutPredPctCor (F32.sub F32.one (EpcOutPredPctErr e)) e) ;;
  upd (λ s, set_Epc (set_EpcMotCosDiff (F32.div (MotSumCosDiff (Sum s)) np) (Epc s)) s) ;;
  upd (λ s, set_Epc (set_EpcOutCosDiff (F32.div (OutSumCosDiff (Sum s)) np) (Epc s)) s) ;;
  upd_Sum (set_MotSumCosDiff F32.zero) ;;
  upd_Sum (set_OutSumCosDiff F32.zero) ;;
  epc <- gets Epoch ;;
  log_int "Epoch" epc epc ;;
  v <- gets (λ s, EpcMotSSE (Epc s)) ;; log_f32 "MotSSE" epc v ;;
  v <- gets (λ s, EpcOutSSE (Epc s)) ;; log_f32 "OutSSE" epc v ;;
  v <- gets (λ s, EpcMotAvgSSE (Epc s)) ;; log_f32 "MotAvgSSE" epc v ;;
  v <- gets (λ s, EpcOutAvgSSE (Epc s)) ;; log_f32 "OutAvgSSE" epc v ;;
  v <- gets (λ s, EpcOutGoalPctErr (Epc s)) ;; log_f32 "OutGoalPctErr" epc v ;;
  v <- gets (λ s, EpcOutPredPctErr (Epc s)) ;; log_f32 "OutPredPctErr" epc v ;;
  v <- gets (λ s, EpcOutGoalPctCor (Epc s)) ;; log_f32 "OutGoalPctCor" epc v ;;
  v <- gets (λ s, EpcOutPredPctCor (Epc s)) ;; log_f32 "OutPredPctCor" epc v ;;
  v <- gets (λ s, EpcMotCosDiff (Epc s)) ;; log_f32 "MotCosDiff" epc v ;;
  v <- gets (λ s, EpcOutCosDiff (Epc s)) ;; log_f32 "OutCosDiff" epc v ;;
  v <- ActMAvg contextLay ;; log_f32 "ContextActAvg" epc v ;;
  v <- ActMAvg goalLay ;; log_f32 "GoalActAvg" epc v ;;
  v <- ActMAvg motorLay ;; log_f32 "MotorActAvg" epc v ;;
  v <- ActMAvg outcomeLay ;; log_f32 "OutActAvg" epc v ;;
  n <- gets (λ s, OutGoalCntErr (Sum s)) ;; log_int "OutGoalCntErr" epc n ;;
  n <- gets (λ s, OutPredCntErr (Sum s)) ;; log_int "OutPredCntErr" epc n.

(** [PlotEpcLog] draws the epoch plot (GUI). *)
Definition PlotEpcLog : M unit := emit EvPlotEpcLog.

(** Lines 377-414 of [TrainTrial]: after the first alpha cycle, copy the
    Motor and Outcome activations ("ActP") into the columns of ExtReps
    at the presented row.  Returns [msz] and [osz]. *)
Definition CaptureRelay (row : Z) (motorLay outcomeLay : string) : M (Z * Z) :=
  mr <- gets (λ s, Lay_UnitVals (Net s) motorLay "ActP") ;;
  let mav := mr.1 in
  let errm := mr.2 in
  let msz := Z.of_nat (length mav) in
  rc <- Col_RowCellSize TExtReps "Motor" ;;
  let cells := rc.2 in
  let stidx := int_mul row cells in
  when (bool_decide (errm = None))
    (range_over mav (λ i v,
       Col_SetFloat1D TExtReps "Motor" (int_add stidx i) (F64_of_f32 v))) ;;
  or <- gets (λ s, Lay_UnitVals (Net s) outcomeLay "ActP") ;;
  let oav := or.1 in
  let err := or.2 in
  let osz := Z.of_nat (length oav) in
  rc <- Col_RowCellSize TExtReps "Outcome" ;;
  let cels := rc.2 in
  let sidx := int_mul row cels in
  when (bool_decide (err = None))
    (range_over oav (λ j v,
       Col_SetFloat1D TExtReps "Outcome" (int_add sidx j) (F64_of_f32 v))) ;;
  ret (msz, osz).

(** Lines 415-423 of [TrainTrial]: reset the Motor and Outcome vectors. *)
Definition ClearRelay (row msz osz : Z) : M unit :=
  for_range msz (λ j,
    Col_SetFloat1D TExtReps "Motor" (int_add row j) (F64_of_int 0)) ;;
  for_range osz (λ j,
    Col_SetFloat1D TExtReps "Outcome" (int_add row j) (F64_of_int 0)).

(** One pass through the body of the loop of [TrainTrial]; the result
    says whether the body left through [break].  [msz] and [osz] are
    declared inside the body, hence zero at the start of every pass. *)
Definition TrainTrial_body (row : Z) (motorLay outcomeLay : string) : M bool :=
  extreps <- gets ExtReps ;;
  ApplyInputs extreps row ;;
  AlphaCyc true ;;
  let msz := 0 in
  let osz := 0 in
  ac <- gets AlphaCycle ;;
  sz <- (if ac =? 0 then CaptureRelay row motorLay outcomeLay
         else ret (msz, osz)) ;;
  ac <- gets AlphaCycle ;;
  if 1 <=? ac then
    ClearRelay row sz.1 sz.2 ;;
    ret true
  else
    TrialStats true ;;
    upd (λ s, set_AlphaCycle (int_add (AlphaCycle s) 1) s) ;;
    ret false.

(** [for ss.AlphaCycle < 2 { ... }] *)
Fixpoint TrainTrial_loop (fuel : nat) (row : Z) (motorLay outcomeLay : string)
    : M unit :=
  ac <- gets AlphaCycle ;;
  if ac <? 2 then
    match fuel with
    | O => panic OutOfFuel
    | S fuel' =>
        brk <- TrainTrial_body row motorLay outcomeLay ;;
        if brk : bool then ret tt
        else TrainTrial_loop fuel' row motorLay outcomeLay
    end
  else ret tt.

(** [TrainTrial] runs one trial of training: two alpha cycles. *)
Definition TrainTrial : M unit :=
  row <- gets Trial ;;
  sequential <- gets Sequential ;;
  row <- (if negb sequential then
            porder <- gets Porder ;;
            trial <- gets Trial ;;
            unwrap IndexOutOfRange (slice_get porder trial)
          else ret row) ;;
  motorLay <- LayerByName "Motor" ;;
  outcomeLay <- LayerByName "Outcome" ;;
  upd (set_AlphaCycle 0) ;;
  TrainTrial_loop 2 row motorLay outcomeLay ;;
  TrialStats true ;;
  upd (λ s, set_Trial (int_add (Trial s) 1) s) ;;
  nr <- gets (λ s, NumRows (ExtReps s)) ;;
  trial <- gets Trial ;;
  when (nr <=? trial) (
    LogEpoch ;;
    plot <- gets Plot ;;
    when plot PlotEpcLog ;;
    upd (set_Trial 0) ;;
    upd (λ s, set_Epoch (int_add (Epoch s) 1) s) ;;
    PermuteInts_Porder ;;
    viewOn <- gets ViewOn ;;
    trainUpdt <- gets TrainUpdt ;;
    when (viewOn && (leabra.rank leabra.AlphaCycle <? leabra.rank trainUpdt))
      UpdateView).

(** [TrainEpoch] runs one full epoch at a time.
    [for { TrainTrial(); if StopNow || Epoch > curEpc { break } }] *)
Fixpoint TrainEpoch_loop (fuel : nat) (curEpc : Z) : M unit :=
  match fuel with
  | O => panic OutOfFuel
  | S fuel' =>
      TrainTrial ;;
      stopNow <- gets StopNow ;;
      epoch <- gets Epoch ;;
      if stopNow || (curEpc <? epoch) then ret tt
      else TrainEpoch_loop fuel' curEpc
  end.

Definition TrainEpoch (fuel : nat) : M unit :=
  curEpc <- gets Epoch ;;
  TrainEpoch_loop fuel curEpc.

(** [Train] runs the full training from this point onward. *)
Fixpoint Train_loop (fuel : nat) : M unit :=
  match fuel with
  | O => panic OutOfFuel
  | S fuel' =>
      TrainTrial ;;
      stopNow <- gets StopNow ;;
      epoch <- gets Epoch ;;
      maxEpcs <- gets MaxEpcs ;;
      if stopNow || (maxEpcs <=? epoch) then ret tt
      else Train_loop fuel'
  end.

Definition Train (fuel : nat) : M unit :=
  upd (set_StopNow false) ;;
  stEpc <- gets Epoch ;;
  Train_loop fuel ;;
  epoch <- gets Epoch ;;
  let epcs := int_add epoch (- stEpc) in
  emit (EvTook epcs).

(** [Init] restarts the run, and initializes everything, including
    network weights, and resets the epoch log table. *)
Definition Init : M unit :=
  with_rand (λ s _, (tt, rand_Seed (RndSeed s))) ;;
  maxEpcs <- gets MaxEpcs ;;
  when (maxEpcs =? 0) (upd (set_MaxEpcs 500)) ;;
  upd (set_Epoch 0) ;;
  upd (set_Trial 0) ;;
  upd (set_StopNow false) ;;
  upd (λ s, set_Time (Time_Reset (Time s)) s) ;;
  np <- gets (λ s, NumRows (ExtReps s)) ;;
  porder <- (if np <? 0 then panic NegativeLen
             else with_rand (λ _, rand_Perm np)) ;;
  upd (set_Porder porder) ;;
  net_call Net_StyleParams EvStyleParams ;;
  net_rand_call (λ s, Net_InitWts (Net s)) EvInitWts ;;
  upd (λ s, set_EpcLog (SetNumRows 0 (EpcLog s)) s) ;;
  UpdateView.

(** [OpenExtReps] opens the CSV version of the ExtReps file; an error is
    logged. *)
Definition OpenExtReps : M unit :=
  r <- gets (λ s, OpenCSV "goal-guy-0-5x5-25-gen.dat" (ExtReps s)) ;;
  upd (set_ExtReps r.1) ;;
  match r.2 with
  | Some err => emit (EvPrintln err)
  | None => ret tt
  end.

(** [ConfigEpcLog] sets up the EpcLog table: its schema, with no rows. *)
Definition EpcLog_schema : list (string * Tensor) :=
  ("Epoch", TInt64 []) ::
  map (λ nm, (nm, TFloat32 1 []))
    ["MotSSE"; "OutSSE"; "MotAvgSSE"; "OutAvgSSE"; "OutGoalPctErr";
     "OutPredPctErr"; "OutGoalPctCor"; "OutPredPctCor"; "MotCosDiff";
     "OutCosDiff"; "ContextActAvg"; "GoalActAvg"; "MotorActAvg"; "OutActAvg";
     "OutPredCntErr"; "OutGoalCntErr"].

Definition ConfigEpcLog : M unit :=
  upd (set_EpcLog (mkTable (list_to_map EpcLog_schema) 0)) ;;
  upd (set_Plot true).

End Driver.

Arguments Ok {C A} a w.
Arguments Crash {C A} p.

Notation "x <- m ;; k" := (bind m (λ x, k))
  (at level 100, m at next level, right associativity) : go_scope.
Notation "m ;; k" := (bind m (λ _, k))
  (at level 100, right associativity) : go_scope.
Open Scope go_scope.

(** The setters unfold when applied, so that a state stays in the form
    of a record of its fields. *)
Arguments set_EpcMotSSE v r /.
Arguments set_EpcOutSSE v r /.
Arguments set_EpcMotAvgSSE v r /.
Arguments set_EpcOutAvgSSE v r /.
Arguments set_EpcOutGoalPctErr v r /.
Arguments set_EpcOutPredPctErr v r /.
Arguments set_EpcOutGoalPctCor v r /.
Arguments set_EpcOutPredPctCor v r /.
Arguments set_EpcMotCosDiff v r /.
Arguments set_EpcOutCosDiff v r /.
Arguments set_MotSumSSE v r /.
Arguments set_MotSumAvgSSE v r /.
Arguments set_MotSumCosDiff v r /.
Arguments set_OutSumSSE v r /.
Arguments set_OutSumAvgSSE v r /.
Arguments set_OutSumCosDiff v r /.
Arguments set_OutGoalCntErr v r /.
Arguments set_OutPredCntErr v r /.
Arguments set_Net {C} v r /.
Arguments set_ExtReps {C} v r /.
Arguments set_EpcLog {C} v r /.
Arguments set_MaxEpcs {C} v r /.
Arguments set_Epoch {C} v r /.
Arguments set_Trial {C} v r /.
Arguments set_AlphaCycle {C} v r /.
Arguments set_Time {C} v r /.
Arguments set_Plot {C} v r /.
Arguments set_Sequential {C} v r /.
Arguments set_Test {C} v r /.
Arguments set_Epc {C} v r /.
Arguments set_Sum {C} v r /.
Arguments set_Porder {C} v r /.
Arguments set_StopNow {C} v r /.
Arguments set_RndSeed {C} v r /.
Arguments set_ss {C} v w /.
Arguments set_pending {C} v w /.
Arguments set_table {C} t v s /.

(** ** A small engine to run the program on

    Layers are lists of units.  A layer to which a pattern is applied
    shows that pattern as its plus-phase activity ("ActP"); otherwise it
    shows its own free-running activity, which is also its minus-phase
    activity ([ActM]) unless the layer is an input.  [MSE] compares the
    applied pattern with [ActM].  The random source is a counter and a
    permutation is a rotation; the pattern file is [csv], if there is one. *)
Module Toy.

Record Net : Type := mkNet {
layers : list string;
free : list (string * list float32);
failing : list string;
ext : list (string * list float32);
types : list (string * emer.LayerType);
cos : float32;
updates : Z
}.

Definition assoc {A} (l : list (string * A)) (k : string) : option A :=
snd <$> List.find (λ p, String.eqb (fst p) k) l.

Definition has (l : list string) (k : string) : bool :=
existsb (String.eqb k) l.

Definition set_ext (v : list (string * list float32)) (n : Net) : Net :=
mkNet (layers n) (free n) (failing n) v (types n) (cos n) (updates n).
Definition set_types (v : list (string * emer.LayerType)) (n : Net) : Net :=
mkNet (layers n) (free n) (failing n) (ext n) v (cos n) (updates n).
Definition set_updates (v : Z) (n : Net) : Net :=
mkNet (layers n) (free n) (failing n) (ext n) (types n) (cos n) v.

Definition actM (n : Net) (lay : string) : list float32 :=
match assoc (types n) lay, assoc (ext n) lay with
| Some emer.Input, Some pat => pat
| _, _ => default [] (assoc (free n) lay)
end.

Definition actP (n : Net) (lay : string) : list float32 :=
match assoc (ext n) lay with
| Some pat => pat
| None => default [] (assoc (free n) lay)
end.

Definition UnitVals (n : Net) (lay var : string)
  : list float32 * option string :=
if has (failing n) lay then ([], Some "UnitVals: no data")
else (actP n lay, None).

Fixpoint sse (tol : float32) (targ act : list float32) : float32 :=
match targ, act with
| t :: targ', a :: act' =>
    let d := F32.sub t a in
    let rest := sse tol targ' act' in
    if F32.ltb (F32.abs d) tol then rest else F32.add (F32.mul d d) rest
| _, _ => F32.zero
end.

Definition MSE (n : Net) (lay : string) (tol : float32) : float32 * float32 :=
match assoc (ext n) lay with
| Some targ =>
    let s := sse tol targ (actM n lay) in
    (s, F32.div s (F32.of_int (Z.of_nat (length targ))))
| None => (F32.zero, F32.zero)
end.

Definition rotate {A} (k : nat) (l : list A) : list A :=
drop (k `mod` length l)%nat l ++ take (k `mod` length l)%nat l.

Definition collab (csv : option Table) : Collab := {|
Network := Net;
LTime := Z * Z;
Rand := Z;
Net_HasLayer n lay := has (layers n) lay;
Net_InitExt n := set_ext [] n;
Net_AlphaCycInit n := n;
Net_Cycle _ n r := (n, r);
Net_QuarterFinal _ n := n;
Net_DWt n := set_updates (updates n + 1) n;
Net_WtFmDWt n := set_updates (updates n + 1) n;
Net_StyleParams n := n;
Net_InitWts n r := (set_updates 0 n, r + 1);
Lay_SetType lay ty n := set_types ((lay, ty) :: types n) n;
Lay_ApplyExt lay pat n := set_ext ((lay, pat) :: ext n) n;
Lay_UnitVals := UnitVals;
Lay_MSE := MSE;
Lay_CosDiff_Cos n _ := cos n;
Lay_Neurons_ActM := actM;
Lay_Pools0_ActMAvg n lay :=
  if has (layers n) lay then Some F32.zero else None;
Time_Reset t := (0, t.2);
Time_AlphaCycStart t := (0, t.2);
Time_CycleInc t := (t.1 + 1, t.2);
Time_QuarterInc t := t;
Time_CycPerQtr t := t.2;
rand_Seed seed := seed;
rand_Perm n r := (rotate (Z.to_nat r) (seqZ 0 n), r + 1);
erand_PermuteInts l r := (rotate (Z.to_nat r) l, r + 1);
OpenCSV file t :=
  match csv with
  | Some t' => (t', None)
  | None => (t, Some ("open " +:+ file +:+ ": no such file or directory"))
  end
|}.

(** The four 1-unit layers of a network. *)
Definition roles : list string := ["Context"; "Goal"; "Motor"; "Outcome"].

Definition net (fr : list (string * list float32)) (fl : list string) : Net :=
mkNet roles fr fl [] [] F32.one 0.

(** A pattern table with the given columns of [cells] values per row. *)
Definition patterns (rows cells : Z) (cols : list (string * list float32))
  : Table :=
mkTable (list_to_map (prod_map id (TFloat32 cells) <$> cols)) rows.

Definition no_sums : Sums :=
mkSums F32.zero F32.zero F32.zero F32.zero F32.zero F32.zero 0 0.
Definition no_stats : Stats :=
mkStats F32.zero F32.zero F32.zero F32.zero F32.zero F32.zero F32.zero
        F32.zero F32.zero F32.zero.

(** The [Sim] after [New], [Config] and [Init], with the given network
  and patterns: counters at zero, an empty log, no view. *)
Definition sim (csv : option Table) (n : Net) (pats : Table)
  (sequential : bool) (porder : list Z) : @Sim (collab csv) :=
@mkSim (collab csv) n pats (mkTable (list_to_map EpcLog_schema) 0)
  500 0 0 0 (0, 1) true leabra.Cycle leabra.Cycle
  true sequential false no_stats no_sums porder false false 1.

Definition world (csv : option Table) (s : @Sim (collab csv))
  : @World (collab csv) :=
@mkWorld (collab csv) s 1 [] None.

End Toy.

(** ** Vocabulary of the statements *)

(** A value of a column, as the column's type keeps it. *)
Inductive Cell : Type :=
  | CF (x : float32)
  | CI (n : Z).

Definition Tensor_get (c : Tensor) (i : Z) : option Cell :=
  match c with
  | TFloat32 _ vs => CF <$> slice_get vs i
  | TInt64 vs => CI <$> slice_get vs i
  end.

Definition as_cell (c : Tensor) (v : float64) : Cell :=
  match c with
  | TFloat32 _ _ => CF (to_float32 v)
  | TInt64 _ => CI (to_int64 v)
  end.

(** Column [col] of table [t] has, at row [row], the value [v] as
    [SetFloat1D] stores it. *)
Definition holds (t : Table) (col : string) (row : Z) (v : float64) : Prop :=
  ∃ c, ColByName t col = Some c ∧ Tensor_get c row = Some (as_cell c v).

(** The values of a pattern column. *)
Definition values (c : Tensor) : list float32 :=
  match c with TFloat32 _ vs => vs | TInt64 _ => [] end.

(** What a piece of history adds up to: the calls of [DWt], the calls of
    [WtFmDWt], and the results of [TrialStats] with their alpha cycle. *)
Definition stats_of (evs : list Event) : list (Z * StatsResult) :=
  omap (λ e, match e with EvTrialStats a r => Some (a, r) | _ => None end) evs.

Definition tally (evs : list Event) : nat * nat * list (Z * StatsResult) :=
  (count is_DWt evs, count is_WtFmDWt evs, stats_of evs).

(** The outcome SSE of the sub-phase-0 statistics in a history. *)
Definition osses (evs : list Event) : list float32 :=
  omap (λ e, match e with
             | EvTrialStats 0 r => Some (osse r)
             | _ => None
             end) evs.

(** [sum32 a l]: [a] after [a += x] for every [x] of [l], in order. *)
Definition sum32 (a : float32) (l : list float32) : float32 :=
  fold_left F32.add l a.

(** The loop [for i := range vals { col.SetFloat1D(off+i, vals[i]) }] on
    one column, from index [i] on. *)
Fixpoint write_from (c : Tensor) (off i : Z) (vals : list float32)
    : option Tensor :=
  match vals with
  | [] => Some c
  | v :: vals' =>
      match SetFloat1D c (int_add off i) (F64_of_f32 v) with
      | Some c' => write_from c' off (i + 1) vals'
      | None => None
      end
  end.

(** The capture of one role, given what [UnitVals] answered: the table
    afterwards, or [None] when the program panics. *)
Definition capture_col (t : Table) (nm : string) (row : Z)
    (r : list float32 * option string) : option Table :=
  match ColByName t nm with
  | None => None
  | Some c =>
      if bool_decide (r.2 = None) then
        match write_from c (int_mul row (RowCellSize c).2) 0 r.1 with
        | Some c' => Some (set_col t nm c')
        | None => None
        end
      else Some t
  end.

(** The row [row] of a pattern column with [vals] copied over its first
    cells, and the condition for the copy to stay inside the column. *)
Definition relayed (c : Tensor) (row : Z) (vals : list float32) : Tensor :=
  match c with
  | TFloat32 cells vs =>
      TFloat32 cells
        (take (Z.to_nat (row * cells)) vs ++ vals ++
         drop (Z.to_nat (row * cells) + length vals) vs)
  | TInt64 _ => c
  end.

Definition fits (c : Tensor) (row : Z) (vals : list float32) : Prop :=
  match c with
  | TFloat32 cells vs =>
      0 ≤ row * cells ∧
      row * cells + Z.of_nat (length vals) ≤ Z.of_nat (length vs) < 2 ^ 63
  | TInt64 _ => False
  end.

(** [pos x]: a NaN, plus infinity, or a positive number. *)
Definition pos (x : float32) : Prop :=
  x = S754_nan ∨ x = S754_infinity false ∨
  ∃ m e, x = S754_finite false m e ∧ -149 ≤ e.

(** The test of [TrialStats] on one unit: is the difference of the two
    activities within the tolerance of 0.5? *)
Definition within_tol (g o : float32) : bool :=
  F32.ltb (F32.abs (F32.sub g o)) F32.half.

(** Does at least one unit differ by the tolerance or more? *)
Definition any_exceeds (goal outcome : list float32) : bool :=
  existsb (λ p, negb (within_tol p.1 p.2)) (zip goal outcome).

Definition Sums_zero : Sums :=
  mkSums F32.zero F32.zero F32.zero F32.zero F32.zero F32.zero 0 0.

Section Logic.
Context `{C : Collab}.

(** The world after the other goroutine moved: only the stop flag and
    the pending request differ. *)
Definition stopped (b : bool) (p : option nat) (w : World) : World :=
  mkWorld (set_StopNow b (ss w)) (rnd w) (hist w) p.

(** Weakest precondition: every result that is reached satisfies [Q],
    a panic is allowed, running out of fuel is not. *)
Definition wp {A} (m : M A) (Q : A → World → Prop) (w : World) : Prop :=
  match m w with
  | Ok a w' => Q a w'
  | Crash p => p ≠ OutOfFuel
  end.

(** Total version of [wp]: the result is reached, and satisfies [Q]. *)
Definition twp {A} (m : M A) (Q : A → World → Prop) (w : World) : Prop :=
  match m w with
  | Ok a w' => Q a w'
  | Crash _ => False
  end.

(** [Eng s h k w]: [w] comes from the [Sim] [s] and the history [h] by
    calls into the engine and the view that add up to [k]. *)
Definition Eng (s : Sim) (h : list Event)
    (k : nat * nat * list (Z * StatsResult)) (w : World) : Prop :=
  ∃ n t b r p evs,
    w = mkWorld (set_Net n (set_Time t (set_StopNow b s))) r (h ++ evs) p ∧
    tally evs = k.

(** The fields that the engine's calls leave alone. *)
Definition frame_eng s :=
  (ExtReps s, EpcLog s, MaxEpcs s, Epoch s, Trial s, AlphaCycle s, ViewOn s,
   TrainUpdt s, TestUpdt s, Plot s, Sequential s, Test s, Epc s, Sum s,
   Porder s, NetView s, RndSeed s).

(** What [TrialStats] does to the running sums, given its results and
    the sum [oge] of its loop over the Goal units. *)
Definition TrialStats_sums (ac : Z) (accum : bool) (res : StatsResult)
    (oge : float32) (a : Sums) : Sums :=
  if ac =? 0 then
    mkSums (MotSumSSE a) (MotSumAvgSSE a) (MotSumCosDiff a)
      (if accum then F32.add (OutSumSSE a) (osse res) else OutSumSSE a)
      (if accum then F32.add (OutSumAvgSSE a) (oavgsse res) else OutSumAvgSSE a)
      (if accum then F32.add (OutSumCosDiff a) (outcosdiff res)
       else OutSumCosDiff a)
      (if F32.neb oge F32.zero then int_add (OutGoalCntErr a) 1
       else OutGoalCntErr a)
      (if accum && F32.neb (osse res) F32.zero then int_add (OutPredCntErr a) 1
       else OutPredCntErr a)
  else if ac =? 1 then
    mkSums
      (if accum then F32.add (MotSumSSE a) (msse res) else MotSumSSE a)
      (if accum then F32.add (MotSumAvgSSE a) (mavgsse res) else MotSumAvgSSE a)
      (if accum then F32.add (MotSumCosDiff a) (motcosdiff res)
       else MotSumCosDiff a)
      (OutSumSSE a) (OutSumAvgSSE a) (OutSumCosDiff a)
      (OutGoalCntErr a) (OutPredCntErr a)
  else a.

(** What one trial does, as far as the statements below need it: the
    history it adds (the statistics of the two sub-phases, each after one
    learning step), what it leaves alone in the pattern table, and the
    sum of the outcome SSE, which goes to the log when the trial is the
    last of its epoch. *)
Definition trial_post (w w' : World) : Prop :=
  ∃ r0 r1 evs0 evs1 evs2,
    hist w' = hist w ++ evs0 ++ [EvTrialStats 0 r0] ++ evs1
                ++ [EvTrialStats 1 r1] ++ evs2 ∧
    tally evs0 = (1%nat, 1%nat, []) ∧
    tally evs1 = (1%nat, 1%nat, []) ∧
    tally evs2 = (0%nat, 0%nat, []) ∧
    NumRows (ExtReps (ss w')) = NumRows (ExtReps (ss w)) ∧
    ColByName (ExtReps (ss w')) "Context" = ColByName (ExtReps (ss w)) "Context" ∧
    ColByName (ExtReps (ss w')) "Goal" = ColByName (ExtReps (ss w)) "Goal" ∧
    let N := NumRows (ExtReps (ss w)) in
    let t1 := int_add (Trial (ss w)) 1 in
    let a := F32.add (OutSumSSE (Sum (ss w))) (osse r0) in
    if N <=? t1 then
      Trial (ss w') = 0 ∧
      Epoch (ss w') = int_add (Epoch (ss w)) 1 ∧
      Sum (ss w') = Sums_zero ∧
      holds (EpcLog (ss w')) "OutSSE" (Epoch (ss w))
        (F64_of_f32 (F32.div a (F32.of_int N)))
    else
      Trial (ss w') = t1 ∧
      Epoch (ss w') = Epoch (ss w) ∧
      OutSumSSE (Sum (ss w')) = a ∧
      EpcLog (ss w') = EpcLog (ss w).

(** [n] trials in a row. *)
Fixpoint run_trials (n : nat) : M unit :=
  match n with
  | O => ret tt
  | S k => TrainTrial ;; run_trials k
  end.

End Logic.

Arguments stopped {C} b p w /.

(** ** The engine behind the history

    The calls of a trial into the engine, read back from the history:
    what each recorded call does to the network, the time and the random
    source.  [AlphaCyc] steps the time right after the call it belongs to
    ([AlphaCycStart] after [AlphaCycInit], [CycleInc] after [Cycle],
    [QuarterInc] after [QuarterFinal]). *)

Section Replay.
Context `{C : Collab}.

Definition engine_step (e : Event) (st : Network * LTime * Rand)
    : Network * LTime * Rand :=
  let '(n, t, r) := st in
  match e with
  | EvInitExt => (Net_InitExt n, t, r)
  | EvSetType lay ty => (Lay_SetType lay ty n, t, r)
  | EvApplyExt lay pat => (Lay_ApplyExt lay pat n, t, r)
  | EvAlphaCycInit => (Net_AlphaCycInit n, Time_AlphaCycStart t, r)
  | EvCycle => let '(n', r') := Net_Cycle t n r in (n', Time_CycleInc t, r')
  | EvQuarterFinal => (Net_QuarterFinal t n, Time_QuarterInc t, r)
  | EvDWt => (Net_DWt n, t, r)
  | EvWtFmDWt => (Net_WtFmDWt n, t, r)
  | EvStyleParams => (Net_StyleParams n, t, r)
  | EvInitWts => let '(n', r') := Net_InitWts n r in (n', t, r')
  | EvUpdateView | EvPlotEpcLog | EvPrintln _ | EvTook _ | EvTrialStats _ _ =>
      st
  end.

Fixpoint replay (evs : list Event) (st : Network * LTime * Rand)
    : Network * LTime * Rand :=
  match evs with
  | [] => st
  | e :: evs' => replay evs' (engine_step e st)
  end.

(** The settle of one sub-phase: four quarters, and no learning yet. *)
Definition settles (evs : list Event) : Prop :=
  count is_QuarterFinal evs = 4%nat ∧ count is_DWt evs = 0%nat ∧
  count is_WtFmDWt evs = 0%nat ∧ stats_of evs = [].

Definition reports (evs : list Event) : Prop := forallb is_report evs = true.

(** [Traced s r0 h q w]: [w] comes from the [Sim] [s], the random source
    [r0] and the history [h] by calls into the engine that are all in
    the history, [q] of them [QuarterFinal] and none a learning step. *)
Definition Traced (s : Sim) (r0 : Rand) (h : list Event) (q : nat) (w : World)
    : Prop :=
  ∃ n t b r p evs,
    w = mkWorld (set_Net n (set_Time t (set_StopNow b s))) r (h ++ evs) p ∧
    (count is_QuarterFinal evs, count is_DWt evs, count is_WtFmDWt evs,
     stats_of evs) = (q, 0%nat, 0%nat, []) ∧
    replay evs (Net s, Time s, r0) = (n, t, r).

(** What one trial does to the engine: two sub-phases, each a settle
    followed by [DWt] and [WtFmDWt], each before its statistics. *)
Definition learns (w w' : World) : Prop :=
  ∃ r0 r1 x0 y0 x1 y1 e2,
    hist w' = hist w ++ (x0 ++ [EvDWt; EvWtFmDWt] ++ y0)
                ++ [EvTrialStats 0 r0]
                ++ (x1 ++ [EvDWt; EvWtFmDWt] ++ y1)
                ++ [EvTrialStats 1 r1] ++ e2 ∧
    settles x0 ∧ reports y0 ∧ settles x1 ∧ reports y1 ∧ reports e2 ∧
    let st0 := replay x0 (Net (ss w), Time (ss w), rnd w) in
    let st1 := replay x1 (Net_WtFmDWt (Net_DWt st0.1.1), st0.1.2, st0.2) in
    Net (ss w') = Net_WtFmDWt (Net_DWt st1.1.1) ∧ Time (ss w') = st1.1.2.

End Replay.

(** ** What a run does not depend on

    [erase EStop] forgets the stop flag and the pending request,
    [erase ETest] forgets the [Test] field.  A step is blind to them when
    it sends worlds that agree up to the erasure to results that do. *)
Inductive Eraser : Type := EStop | ETest.

Section Blindness.
Context `{C : Collab}.

Definition erase (e : Eraser) (w : World) : World :=
  match e with
  | EStop => mkWorld (set_StopNow false (ss w)) (rnd w) (hist w) None
  | ETest => mkWorld (set_Test false (ss w)) (rnd w) (hist w) (pending w)
  end.

Definition Rres (e : Eraser) {A} (r1 r2 : Res A) : Prop :=
  match r1, r2 with
  | Ok a1 w1, Ok a2 w2 => a1 = a2 ∧ erase e w1 = erase e w2
  | Crash p1, Crash p2 => p1 = p2
  | _, _ => False
  end.

Definition Blind (e : Eraser) {A} (m : M A) : Prop :=
  ∀ w1 w2, erase e w1 = erase e w2 → Rres e (m w1) (m w2).

End Blindness.

(** What is seen of the result of a run and of the world it ends in;
    [None] after a panic. *)
Definition after `{C : Collab} {A B} (r : Res A) (f : A → World → B)
    : option B :=
  match r with
  | Ok a w => Some (f a w)
  | Crash _ => None
  end.

(** The panic a run ends with, if any. *)
Definition panics `{C : Collab} {A} (r : Res A) : option Panic :=
  match r with
  | Ok _ _ => None
  | Crash p => Some p
  end.

(** ** Concrete runs

    Small worlds over the toy engine on which the programs are run. *)
Module Ex.

(** One authored row of one cell per role. *)
Definition pats : Table :=
Toy.patterns 1 1
  [("Context", [F32.one]); ("Goal", [F32.zero]);
   ("Motor", [F32.zero]); ("Outcome", [F32.one])].

(** A network that answers 0.5 on its free Motor unit and 1 on its
  free Goal unit. *)
Definition net : Toy.Net :=
Toy.net [("Context", [F32.zero]); ("Goal", [F32.one]);
         ("Motor", [F32.half]); ("Outcome", [F32.zero])] [].

(** The world after [Init]: the presentation order is [0]. *)
Definition relay : @World (Toy.collab None) :=
Toy.world None (Toy.sim None net pats false [0]).

(** The read of the Motor activity fails. *)
Definition motor_mute : @World (Toy.collab None) :=
Toy.world None
  (Toy.sim None
     (Toy.net [("Context", [F32.zero]); ("Goal", [F32.zero]);
               ("Motor", [F32.half]); ("Outcome", [F32.half])] ["Motor"])
     pats false [0]).

(** Goal has two units, Outcome one; and the other way round. *)
Definition goal_wider : @World (Toy.collab None) :=
Toy.world None
  (Toy.sim None
     (Toy.net [("Context", [F32.zero]); ("Goal", [F32.zero; F32.zero]);
               ("Motor", [F32.zero]); ("Outcome", [F32.zero])] [])
     pats false [0]).
Definition outcome_wider : @World (Toy.collab None) :=
Toy.world None
  (Toy.sim None
     (Toy.net [("Context", [F32.zero]); ("Goal", [F32.zero]);
               ("Motor", [F32.zero]); ("Outcome", [F32.zero; F32.zero])] [])
     pats false [0]).

(** Two units, and Goal differs from Outcome on both. *)
Definition two_off : @World (Toy.collab None) :=
Toy.world None
  (Toy.sim None
     (Toy.net [("Context", [F32.zero]); ("Goal", [F32.one; F32.one]);
               ("Motor", [F32.zero]); ("Outcome", [F32.zero; F32.zero])] [])
     pats false [0]).

(** The world after [New] and [ConfigEpcLog] when there is no pattern
  file: an empty pattern table; and the same in sequential mode. *)
Definition blank (sequential : bool) : @World (Toy.collab None) :=
Toy.world None (Toy.sim None net (mkTable ∅ 0) sequential []).

(** Two authored rows, told apart by their Context value. *)
Definition pats2 : Table :=
Toy.patterns 2 1
  [("Context", [F32.one; F32.zero]); ("Goal", [F32.zero; F32.zero]);
   ("Motor", [F32.zero; F32.zero]); ("Outcome", [F32.one; F32.one])].

(** The world after [New] and [Config] with these two rows, before
  [Init]: seed 1, no presentation order yet, and [MaxEpcs] set to 2. *)
Definition pair : @World (Toy.collab None) :=
Toy.world None (set_MaxEpcs 2 (Toy.sim None net pats2 false [])).

(** 3/2 in binary32. *)
Definition three_halves : float32 := F32.div (F32.of_int 3) (F32.of_int 2).

End Ex.

(** * Proofs *)

Section LogicLemmas.
Context `{C : Collab}.
Implicit Types (w : World) (s : Sim).

Lemma land_stopped w :
  land w = stopped (StopNow (ss w) || due (pending w))
                   (match pending w with Some (S k) => Some k | _ => None end) w.
Proof. reflexivity. Qed.

Lemma wp_elim {A} (m : M A) Q w a w' : m w = Ok a w' → wp m Q w → Q a w'.
Proof. unfold wp. intros ->. auto. Qed.

Lemma wp_fuel {A} (m : M A) Q w : wp m Q w → m w ≠ Crash OutOfFuel.
Proof. unfold wp. destruct (m w); [done|]. intros ? [= ->]. done. Qed.

Lemma wp_mono {A} (m : M A) (Q Q' : A → World → Prop) w :
  wp m Q w → (∀ a w', Q a w' → Q' a w') → wp m Q' w.
Proof. unfold wp. destruct (m w); auto. Qed.

Lemma wp_bind {A B} (m : M A) (f : A → M B) Q w :
  wp m (λ a w', ∀ b p, wp (f a) Q (stopped b p w')) w → wp (bind m f) Q w.
Proof.
  unfold wp, bind. destruct (m w) as [a w'|]; [|done].
  intros H. rewrite land_stopped. apply H.
Qed.

Lemma wp_ret {A} (a : A) Q w : Q a w → wp (ret a) Q w.
Proof. done. Qed.

Lemma wp_gets {A} (f : Sim → A) Q w : Q (f (ss w)) w → wp (gets f) Q w.
Proof. done. Qed.

Lemma wp_upd (f : Sim → Sim) Q w : Q tt (set_ss (f (ss w)) w) → wp (upd f) Q w.
Proof. done. Qed.

Lemma wp_emit e Q w :
  Q tt (mkWorld (ss w) (rnd w) (hist w ++ [e]) (pending w)) → wp (emit e) Q w.
Proof. done. Qed.

Lemma wp_panic {A} p (Q : A → World → Prop) w : p ≠ OutOfFuel → wp (panic p) Q w.
Proof. done. Qed.

Lemma wp_unwrap {A} p (o : option A) Q w :
  p ≠ OutOfFuel → (∀ a, o = Some a → Q a w) → wp (unwrap p o) Q w.
Proof. destruct o; cbn; auto. Qed.

Lemma wp_when (b : bool) m Q w :
  (b = true → wp m Q w) → (b = false → Q tt w) → wp (when b m) Q w.
Proof. destruct b; cbn; auto. Qed.

Lemma wp_with_rand {A} (f : Sim → Rand → A * Rand) Q w :
  (∀ a r, f (ss w) (rnd w) = (a, r) →
          Q a (mkWorld (ss w) r (hist w) (pending w))) →
  wp (with_rand f) Q w.
Proof.
  unfold wp, with_rand. destruct (f (ss w) (rnd w)) as [a r] eqn:E. auto.
Qed.

Lemma wp_for_from (I : World → Prop) n i body Q w :
  I w →
  (∀ j w1, I w1 → wp (body j) (λ _ w2, ∀ b p, I (stopped b p w2)) w1) →
  (∀ w', I w' → Q tt w') →
  wp (for_from n i body) Q w.
Proof.
  intros HI Hbody HQ. revert i w HI.
  induction n as [|n IH]; intros i w HI; cbn [for_from].
  - by apply wp_ret, HQ.
  - apply wp_bind. eapply wp_mono; [by apply Hbody|].
    cbn beta. intros _ w2 H2 b p. by apply IH.
Qed.

Lemma wp_range_from {A} (I : World → Prop) (l : list A) i body Q w :
  I w →
  (∀ j x w1, I w1 → wp (body j x) (λ _ w2, ∀ b p, I (stopped b p w2)) w1) →
  (∀ w', I w' → Q tt w') →
  wp (range_from l i body) Q w.
Proof.
  intros HI Hbody HQ. revert i w HI.
  induction l as [|x l IH]; intros i w HI; cbn [range_from].
  - by apply wp_ret, HQ.
  - apply wp_bind. eapply wp_mono; [by apply Hbody|].
    cbn beta. intros _ w2 H2 b p. by apply IH.
Qed.

(** *** Histories *)

Lemma count_app p (l1 l2 : list Event) :
  count p (l1 ++ l2) = (count p l1 + count p l2)%nat.
Proof. unfold count. by rewrite List.filter_app, length_app. Qed.

Lemma stats_of_app (l1 l2 : list Event) :
  stats_of (l1 ++ l2) = stats_of l1 ++ stats_of l2.
Proof. apply omap_app. Qed.

Lemma osses_app (l1 l2 : list Event) : osses (l1 ++ l2) = osses l1 ++ osses l2.
Proof. apply omap_app. Qed.

Lemma tally_app l1 l2 :
  tally (l1 ++ l2) =
  ((tally l1).1.1 + (tally l2).1.1, (tally l1).1.2 + (tally l2).1.2,
   (tally l1).2 ++ (tally l2).2)%nat.
Proof. unfold tally. by rewrite !count_app, stats_of_app. Qed.

Lemma Eng_stopped s h k w b p : Eng s h k w → Eng s h k (stopped b p w).
Proof.
  intros (n & t & b0 & r & p0 & evs & -> & Hk).
  by exists n, t, b, r, p, evs.
Qed.

Lemma Sim_eta s :
  s = mkSim (Net s) (ExtReps s) (EpcLog s) (MaxEpcs s) (Epoch s) (Trial s)
        (AlphaCycle s) (Time s) (ViewOn s) (TrainUpdt s) (TestUpdt s) (Plot s)
        (Sequential s) (Test s) (Epc s) (Sum s) (Porder s) (NetView s)
        (StopNow s) (RndSeed s).
Proof. by destruct s. Qed.

Lemma Eng_start w : Eng (ss w) (hist w) (0%nat, 0%nat, []) w.
Proof.
  exists (Net (ss w)), (Time (ss w)), (StopNow (ss w)), (rnd w), (pending w), [].
  split; [|done]. rewrite app_nil_r. destruct w as [s r h p]; cbn.
  f_equal. apply Sim_eta.
Qed.

End LogicLemmas.

Ltac wp_simpl :=
  cbn [ss rnd hist pending stopped set_ss fst snd negb andb orb
       Z.eqb Z.leb Z.ltb Z.compare Pos.compare Pos.compare_cont
       Net ExtReps EpcLog MaxEpcs Epoch Trial AlphaCycle Time ViewOn TrainUpdt
       TestUpdt Plot Sequential Test Epc Sum Porder NetView StopNow RndSeed
       set_Net set_ExtReps set_EpcLog set_MaxEpcs set_Epoch set_Trial
       set_AlphaCycle set_Time set_Plot set_Sequential set_Test set_Epc
       set_Sum set_Porder set_StopNow set_RndSeed table_of set_table
       EpcMotSSE EpcOutSSE EpcMotAvgSSE EpcOutAvgSSE EpcOutGoalPctErr
       EpcOutPredPctErr EpcOutGoalPctCor EpcOutPredPctCor EpcMotCosDiff
       EpcOutCosDiff set_EpcMotSSE set_EpcOutSSE set_EpcMotAvgSSE
       set_EpcOutAvgSSE set_EpcOutGoalPctErr set_EpcOutPredPctErr
       set_EpcOutGoalPctCor set_EpcOutPredPctCor set_EpcMotCosDiff
       set_EpcOutCosDiff
       MotSumSSE MotSumAvgSSE MotSumCosDiff OutSumSSE OutSumAvgSSE
       OutSumCosDiff OutGoalCntErr OutPredCntErr set_MotSumSSE
       set_MotSumAvgSSE set_MotSumCosDiff set_OutSumSSE set_OutSumAvgSSE
       set_OutSumCosDiff set_OutGoalCntErr set_OutPredCntErr].

Ltac wp_simpl_in H :=
  cbn [ss rnd hist pending stopped set_ss fst snd negb andb orb
       Z.eqb Z.leb Z.ltb Z.compare Pos.compare Pos.compare_cont
       Net ExtReps EpcLog MaxEpcs Epoch Trial AlphaCycle Time ViewOn TrainUpdt
       TestUpdt Plot Sequential Test Epc Sum Porder NetView StopNow RndSeed
       set_Net set_ExtReps set_EpcLog set_MaxEpcs set_Epoch set_Trial
       set_AlphaCycle set_Time set_Plot set_Sequential set_Test set_Epc
       set_Sum set_Porder set_StopNow set_RndSeed table_of set_table
       EpcMotSSE EpcOutSSE EpcMotAvgSSE EpcOutAvgSSE EpcOutGoalPctErr
       EpcOutPredPctErr EpcOutGoalPctCor EpcOutPredPctCor EpcMotCosDiff
       EpcOutCosDiff set_EpcMotSSE set_EpcOutSSE set_EpcMotAvgSSE
       set_EpcOutAvgSSE set_EpcOutGoalPctErr set_EpcOutPredPctErr
       set_EpcOutGoalPctCor set_EpcOutPredPctCor set_EpcMotCosDiff
       set_EpcOutCosDiff
       MotSumSSE MotSumAvgSSE MotSumCosDiff OutSumSSE OutSumAvgSSE
       OutSumCosDiff OutGoalCntErr OutPredCntErr set_MotSumSSE
       set_MotSumAvgSSE set_MotSumCosDiff set_OutSumSSE set_OutSumAvgSSE
       set_OutSumCosDiff set_OutGoalCntErr set_OutPredCntErr] in H.

Ltac absurd_bool :=
  match goal with
  | H : true = false |- _ => discriminate H
  | H : false = true |- _ => discriminate H
  end.

(** One step of symbolic execution. *)
Ltac wp_step :=
  lazymatch goal with
  | |- wp (bind _ _) _ _ => apply wp_bind
  | |- wp (ret _) _ _ => apply wp_ret
  | |- wp (gets _) _ _ => apply wp_gets
  | |- wp (upd _) _ _ => apply wp_upd
  | |- wp (emit _) _ _ => apply wp_emit
  | |- wp (panic _) _ _ => apply wp_panic; [done]
  | |- wp (unwrap _ _) _ _ => apply wp_unwrap; [done|intros ? ?]
  | |- wp (when _ _) _ _ => apply wp_when; intros ?; try absurd_bool
  | |- wp (if ?b then _ else _) _ _ => destruct b eqn:?; try absurd_bool
  | |- wp (match ?x with _ => _ end) _ _ => destruct x eqn:?
  | |- wp (with_rand _) _ _ => apply wp_with_rand; intros ? ? ?
  | |- wp (net_call _ _) _ _ => unfold net_call
  | |- wp (net_rand_call _ _) _ _ => unfold net_rand_call
  | |- wp (PermuteInts_Porder) _ _ => unfold PermuteInts_Porder
  | |- wp (LayerByName _) _ _ => unfold LayerByName
  | |- wp (ColFloat32 _ _) _ _ => unfold ColFloat32
  | |- wp (ApplyExt _ _) _ _ => unfold ApplyExt
  | |- wp (SetType _ _) _ _ => unfold SetType
  | |- wp (Col_RowCellSize _ _) _ _ => unfold Col_RowCellSize
  | |- wp (Col_SetFloat1D _ _ _ _) _ _ => unfold Col_SetFloat1D
  | |- wp (upd_Sum _) _ _ => unfold upd_Sum
  | |- wp (upd_Epc _) _ _ => unfold upd_Epc
  | |- wp (UpdateView) _ _ => unfold UpdateView
  | |- wp (ActMAvg _) _ _ => unfold ActMAvg
  | |- wp (log_f32 _ _ _) _ _ => unfold log_f32
  | |- wp (log_int _ _ _) _ _ => unfold log_int
  | |- wp (PlotEpcLog) _ _ => unfold PlotEpcLog
  | |- ∀ _, _ => intro
  end; wp_simpl.

Ltac wp_go := repeat wp_step.

(** ** The engine's part of a trial *)

Section EngineSteps.
Context `{C : Collab}.
Implicit Types (w : World) (s : Sim).

Lemma Eng_intro s h k s' r p evs h' :
  frame_eng s' = frame_eng s → h' = h ++ evs → tally evs = k →
  Eng s h k (mkWorld s' r h' p).
Proof.
  intros Hf -> Hk. exists (Net s'), (Time s'), (StopNow s'), r, p, evs.
  split; [|done]. f_equal. destruct s, s'; cbn in *. by simplify_eq.
Qed.

End EngineSteps.

Ltac tally_done :=
  rewrite ?tally_app;
  repeat match goal with H : tally _ = _ |- _ => rewrite H end;
  reflexivity.

Ltac eng_done :=
  intros; wp_simpl; rewrite <- ?app_assoc;
  eapply Eng_intro;
  [ unfold frame_eng; wp_simpl; congruence
  | first [ exact (eq_sym (app_nil_r _)) | reflexivity ]
  | tally_done ].

Ltac eng_open H :=
  let n := fresh "n" in let t := fresh "t" in let b := fresh "b" in
  let r := fresh "r" in let p := fresh "p" in let evs := fresh "evs" in
  let Hk := fresh "Hk" in
  destruct H as (n & t & b & r & p & evs & -> & Hk); wp_simpl.

(** Symbolic execution through loops that only call the engine. *)
Ltac eng_run s h :=
  repeat first
    [ wp_step
    | lazymatch goal with
      | |- wp (for_range _ _) _ _ => unfold for_range
      | |- wp (for_from _ _ _) _ _ =>
          apply (wp_for_from (Eng s h (0%nat, 0%nat, [])));
          [ eng_done
          | let H := fresh "HI" in intros ? ? H; eng_open H
          | let H := fresh "HI" in intros ? H; eng_open H ]
      end ].

Section EngineSpecs.
Context `{C : Collab}.
Implicit Types (w : World) (s : Sim).

Lemma ApplyInputs_spec tbl row w :
  wp (ApplyInputs tbl row) (λ _ w', Eng (ss w) (hist w) (0%nat, 0%nat, []) w') w.
Proof.
  destruct w as [s r h p0]. unfold ApplyInputs. wp_go; eng_done.
Qed.

Lemma AlphaCyc_spec train w :
  wp (AlphaCyc train)
     (λ _ w', Eng (ss w) (hist w)
                  (if train then (1%nat, 1%nat, []) else (0%nat, 0%nat, [])) w') w.
Proof.
  destruct w as [s r h p0]. unfold AlphaCyc.
  destruct train; eng_run s h; eng_done.
Qed.

End EngineSpecs.

(** ** The statistics of a trial *)

Section StatsSpecs.
Context `{C : Collab}.
Implicit Types (w : World) (s : Sim).

Lemma Sums_eta (a : Sums) :
  a = mkSums (MotSumSSE a) (MotSumAvgSSE a) (MotSumCosDiff a) (OutSumSSE a)
        (OutSumAvgSSE a) (OutSumCosDiff a) (OutGoalCntErr a) (OutPredCntErr a).
Proof. by destruct a. Qed.

Lemma World_eq s1 s2 (r : Rand) h1 h2 p :
  s1 = s2 → h1 = h2 → mkWorld s1 r h1 p = mkWorld s2 r h2 p.
Proof. by intros -> ->. Qed.

Lemma TrialStats_spec accum w :
  wp (TrialStats accum) (λ res w',
    ∃ b p pre oge,
      w' = mkWorld
             (set_Sum (TrialStats_sums (AlphaCycle (ss w)) accum res oge
                         (Sum (ss w)))
                      (set_StopNow b (ss w)))
             (rnd w)
             (hist w ++ pre ++ [EvTrialStats (AlphaCycle (ss w)) res]) p ∧
      tally pre = (0%nat, 0%nat, []) ∧
      (AlphaCycle (ss w) = 0 →
         oge_loop F32.half (Lay_Neurons_ActM (Net (ss w)) "Goal") 0
           (Lay_Neurons_ActM (Net (ss w)) "Outcome") F32.zero = Some oge ∧
         osse res = (Lay_MSE (Net (ss w)) "Outcome" F32.half).1)) w.
Proof.
  destruct w as [s r h p0]. unfold TrialStats. wp_go.
  all: rewrite <- ?app_assoc.
  all: lazymatch goal with
       | H : oge_loop _ _ _ _ _ = Some ?o |- _ =>
           first [ eexists _, _, [], o; split;
                   [apply World_eq; [|reflexivity]|]
                 | eexists _, _, [_], o; split;
                   [apply World_eq; [|reflexivity]|] ]
       | |- _ =>
           first [ eexists _, _, [], F32.zero; split;
                   [apply World_eq; [|reflexivity]|]
                 | eexists _, _, [_], F32.zero; split;
                   [apply World_eq; [|reflexivity]|] ]
       end.
  all: try (split; [reflexivity|]; intros Hac;
            first [ done | rewrite Hac in *; discriminate ]).
  all: unfold TrialStats_sums;
    cbn [osse oavgsse outcosdiff msse mavgsse motcosdiff];
    repeat match goal with
           | H : _ = true |- _ => rewrite H
           | H : _ = false |- _ => rewrite H
           end; wp_simpl;
    first [ reflexivity | f_equal; apply Sums_eta ].
Qed.

End StatsSpecs.

(** ** Capture of the produced activity *)

Section CaptureSpecs.
Context `{C : Collab}.
Implicit Types (w : World) (s : Sim).

Lemma set_col_id t nm c : ColByName t nm = Some c → set_col t nm c = t.
Proof.
  unfold ColByName, set_col. intros H. destruct t as [cols rows]; cbn in *.
  f_equal. by apply insert_id.
Qed.

Lemma set_col_set_col t nm c1 c2 :
  set_col (set_col t nm c1) nm c2 = set_col t nm c2.
Proof. unfold set_col; cbn. f_equal. apply insert_insert_eq. Qed.

Lemma ColByName_set_col t nm c : ColByName (set_col t nm c) nm = Some c.
Proof. unfold ColByName, set_col; cbn. apply lookup_insert_eq. Qed.

Lemma ColByName_set_col_ne t nm nm' c :
  nm ≠ nm' → ColByName (set_col t nm c) nm' = ColByName t nm'.
Proof. unfold ColByName, set_col; cbn. apply lookup_insert_ne. Qed.

Lemma wp_write_loop nm off vals i c w :
  ColByName (ExtReps (ss w)) nm = Some c →
  wp (range_from vals i (λ j v,
        Col_SetFloat1D TExtReps nm (int_add off j) (F64_of_f32 v)))
     (λ _ w', ∃ c' b p,
        write_from c off i vals = Some c' ∧
        w' = mkWorld (set_ExtReps (set_col (ExtReps (ss w)) nm c')
                        (set_StopNow b (ss w)))
                     (rnd w) (hist w) p) w.
Proof.
  revert i c w. induction vals as [|v vals IH]; intros i c w Hc.
  - cbn [range_from write_from]. apply wp_ret.
    exists c, (StopNow (ss w)), (pending w). split; [done|].
    rewrite (set_col_id _ _ _ Hc). destruct w as [s r h p]; cbn.
    f_equal. apply Sim_eta.
  - cbn [range_from write_from]. destruct w as [s r h p0]. cbn in Hc.
    wp_go. rewrite Hc in H. simplify_eq. rewrite H0.
    eapply wp_mono; [apply (IH _ a0); wp_simpl; apply ColByName_set_col|].
    cbn beta. intros _ w' (c' & b' & p' & Hw & ->). wp_simpl.
    exists c', b', p'. split; [done|]. by rewrite set_col_set_col.
Qed.

Lemma CaptureRelay_spec row motorLay outcomeLay w :
  wp (CaptureRelay row motorLay outcomeLay) (λ sz w',
    let mr := Lay_UnitVals (Net (ss w)) motorLay "ActP" in
    let or := Lay_UnitVals (Net (ss w)) outcomeLay "ActP" in
    ∃ b p t1 t2,
      capture_col (ExtReps (ss w)) "Motor" row mr = Some t1 ∧
      capture_col t1 "Outcome" row or = Some t2 ∧
      w' = mkWorld (set_ExtReps t2 (set_StopNow b (ss w)))
                   (rnd w) (hist w) p ∧
      sz = (Z.of_nat (length mr.1), Z.of_nat (length or.1))) w.
Proof.
  destruct w as [s r h p0]. unfold CaptureRelay. cbn zeta. wp_simpl.
  repeat first
    [ wp_step
    | lazymatch goal with
      | |- wp (range_over _ _) _ _ => unfold range_over
      | |- wp (range_from _ _ _) _ _ =>
          eapply wp_mono;
          [ apply wp_write_loop; wp_simpl; eassumption
          | cbn beta; intros _ ? (? & ? & ? & ? & ->); wp_simpl ]
      end ].
  all: eexists _, _, _, _.
  all: unfold capture_col.
  all: (split; [|split; [|split; reflexivity]]).
  all: repeat match goal with
         | H : ColByName _ _ = Some _ |- _ => rewrite H
         | H : bool_decide _ = _ |- _ => rewrite H
         | H : write_from _ _ _ _ = Some _ |- _ => rewrite H
         end; try reflexivity.
Qed.

End CaptureSpecs.

(** ** The epoch log *)

Section LogSpecs.
Context `{C : Collab}.
Implicit Types (w : World) (s : Sim).

Lemma slice_set_get {A} (l l' : list A) i v :
  slice_set l i v = Some l' → slice_get l' i = Some v.
Proof.
  unfold slice_set, slice_get, in_range. intros H.
  destruct (_ && _) eqn:E; [|done]. simplify_eq.
  rewrite length_insert, E.
  apply list_lookup_insert_eq. apply andb_prop in E as [? ?]. lia.
Qed.

Lemma SetFloat1D_get c off v c' :
  SetFloat1D c off v = Some c' → Tensor_get c' off = Some (as_cell c' v).
Proof.
  destruct c; cbn; intros H; apply fmap_Some in H as (l' & H & ->); cbn;
    by rewrite (slice_set_get _ _ _ _ H).
Qed.

Lemma holds_set_col t nm c c' row v :
  SetFloat1D c row v = Some c' → holds (set_col t nm c') nm row v.
Proof.
  intros H. exists c'. split; [apply ColByName_set_col|].
  by eapply SetFloat1D_get.
Qed.

Lemma holds_set_col_ne t nm nm' c row v :
  nm ≠ nm' → holds t nm' row v → holds (set_col t nm c) nm' row v.
Proof.
  intros Hne (c0 & H1 & H2). exists c0. split; [|done].
  by rewrite ColByName_set_col_ne.
Qed.

Lemma LogEpoch_spec w :
  wp LogEpoch (λ _ w',
    let np := F32.of_int (NumRows (ExtReps (ss w))) in
    let epc := Epoch (ss w) in
    ∃ lg e b p,
      w' = mkWorld (set_EpcLog lg (set_Epc e (set_Sum Sums_zero
                      (set_StopNow b (ss w))))) (rnd w) (hist w) p ∧
      holds lg "MotSSE" epc (F64_of_f32 (F32.div (MotSumSSE (Sum (ss w))) np)) ∧
      holds lg "OutSSE" epc (F64_of_f32 (F32.div (OutSumSSE (Sum (ss w))) np)) ∧
      holds lg "OutGoalPctErr" epc
        (F64_of_f32 (F32.div (F32.of_int (OutGoalCntErr (Sum (ss w)))) np)) ∧
      holds lg "OutPredPctErr" epc
        (F64_of_f32 (F32.div (F32.of_int (OutPredCntErr (Sum (ss w)))) np)) ∧
      holds lg "OutGoalCntErr" epc (F64_of_int 0) ∧
      holds lg "OutPredCntErr" epc (F64_of_int 0)) w.
Proof.
  destruct w as [s r h p0]. unfold LogEpoch. wp_go.
  eexists _, _, _, _. split; [reflexivity|].
  repeat split.
  all: repeat first
         [ eapply holds_set_col; eassumption
         | apply holds_set_col_ne; [done|] ].
Qed.

End LogSpecs.

(** ** One trial *)

Ltac trial_step :=
  first
    [ wp_step
    | lazymatch goal with
      | |- wp (ApplyInputs _ _) _ _ =>
          eapply wp_mono;
          [ apply ApplyInputs_spec
          | let H := fresh "HI" in cbn beta; intros _ ? H; eng_open H ]
      | |- wp (AlphaCyc _) _ _ =>
          eapply wp_mono;
          [ apply AlphaCyc_spec
          | let H := fresh "HI" in cbn beta; intros _ ? H; eng_open H ]
      | |- wp (CaptureRelay _ _ _) _ _ =>
          eapply wp_mono;
          [ apply CaptureRelay_spec
          | let H1 := fresh "Hcap" in let H2 := fresh "Hcap" in
            cbn beta zeta; intros ? ? (? & ? & ? & ? & H1 & H2 & -> & ->);
            wp_simpl_in H1; wp_simpl_in H2; wp_simpl ]
      | |- wp (TrialStats _) _ _ =>
          eapply wp_mono;
          [ apply TrialStats_spec
          | let H1 := fresh "Hpre" in let H2 := fresh "Hoge" in
            cbn beta; intros ? ? (? & ? & ? & ? & -> & H1 & H2);
            wp_simpl_in H2; wp_simpl ]
      | |- wp LogEpoch _ _ =>
          eapply wp_mono;
          [ apply LogEpoch_spec
          | let H := fresh "Hlog" in
            cbn beta zeta; intros _ ? (? & ? & ? & ? & -> & H);
            wp_simpl_in H; wp_simpl ]
      | |- wp (TrainTrial_loop _ _ _ _) _ _ => cbn [TrainTrial_loop]
      | |- wp (TrainTrial_body _ _ _) _ _ => unfold TrainTrial_body
      | |- wp (ClearRelay _ _ _) _ _ =>
          unfold ClearRelay, for_range; cbn [fst snd];
          change (Z.to_nat 0) with 0%nat; cbn [for_from]
      end ];
  try change (int_add 0 1) with 1; wp_simpl.

(** Split a flattened history at its first [EvTrialStats]. *)
Ltac split_stats t :=
  lazymatch t with
  | [EvTrialStats _ ?r] ++ ?rest => constr:((@nil Event, r, rest))
  | [EvTrialStats _ ?r] => constr:((@nil Event, r, @nil Event))
  | ?x ++ ?rest =>
      let res := split_stats rest in
      lazymatch res with
      | (?pre, ?r, ?post) => constr:((x ++ pre, r, post))
      end
  end.

Section TrialSpec.
Context `{C : Collab}.
Implicit Types (w : World) (s : Sim).

Lemma capture_col_frame t nm row r t' :
  capture_col t nm row r = Some t' →
  Rows t' = Rows t ∧ ∀ nm', nm ≠ nm' → ColByName t' nm' = ColByName t nm'.
Proof.
  unfold capture_col. intros H.
  destruct (ColByName t nm) as [c|]; [|done].
  destruct (bool_decide _); [|by simplify_eq].
  destruct (write_from _ _ _ _); [|done]. simplify_eq. split; [done|].
  intros nm' Hne. by apply ColByName_set_col_ne.
Qed.

Lemma TrainTrial_spec w : wp TrainTrial (λ _ w', trial_post w w') w.
Proof.
  destruct w as [s r h p0]. unfold TrainTrial.
  repeat trial_step.
  all: destruct (capture_col_frame _ _ _ _ _ Hcap) as [HR1 HC1];
    destruct (capture_col_frame _ _ _ _ _ Hcap0) as [HR2 HC2].
  all: assert (HN : NumRows x2 = NumRows (ExtReps s))
    by (unfold NumRows; congruence).
  all: rewrite HN in *.
  all: unfold trial_post; wp_simpl; rewrite <- ?app_assoc.
  all: lazymatch goal with
       | |- ∃ r0 r1 e0 e1 e2, ?h ++ ?L = _ ∧ _ =>
           let res0 := split_stats L in
           lazymatch res0 with
           | (?pre0, ?r0, ?rest0) =>
               let res1 := split_stats rest0 in
               lazymatch res1 with
               | (?pre1, ?r1, ?post1) => exists r0, r1, pre0, pre1, post1
               end
           end
       end.
  all: split; [rewrite <- ?app_assoc; reflexivity|].
  all: split; [tally_done|].
  all: split; [tally_done|].
  all: split; [tally_done|].
  all: split; [exact HN|].
  all: split; [by rewrite HC2, HC1|].
  all: split; [by rewrite HC2, HC1|].
  all: cbn zeta.
  all: lazymatch goal with
       | H : (_ <=? _) = _ |- _ => rewrite H
       end.
  all: cbn [TrialStats_sums Z.eqb OutSumSSE MotSumSSE andb] in *.
  all: first
    [ by repeat split
    | repeat split; try reflexivity;
      destruct Hlog as (_ & Hl & _); exact Hl ].
Qed.

End TrialSpec.

(** ** Epochs *)

Section Epochs.
Context `{C : Collab}.
Implicit Types (w : World) (s : Sim).

Lemma wrap64_small z : - 2 ^ 63 ≤ z < 2 ^ 63 → wrap64 z = z.
Proof. intros H. unfold wrap64. rewrite Z.mod_small; lia. Qed.

Lemma stats_of_osses evs : stats_of evs = [] → osses evs = [].
Proof.
  induction evs as [|e evs IH]; [done|].
  destruct e; cbn; try done.
Qed.

Lemma tally_osses evs n m : tally evs = (n, m, []) → osses evs = [].
Proof. intros [= _ _ H]. by apply stats_of_osses. Qed.

Lemma run_trials_S k w w' :
  run_trials (S k) w = Ok tt w' →
  ∃ w1, TrainTrial w = Ok tt w1 ∧ run_trials k (land w1) = Ok tt w'.
Proof.
  cbn [run_trials]. unfold bind. destruct (TrainTrial w) as [[] w1|]; [|done].
  intros H. by exists w1.
Qed.

Lemma TrainTrial_post w w' : TrainTrial w = Ok tt w' → trial_post w w'.
Proof. intros H. exact (wp_elim _ _ _ _ _ H (TrainTrial_spec w)). Qed.

(** From trial [t] of an epoch to its end: the log gets the running sum
    plus the outcome SSE of the remaining trials, divided by [N]. *)
Lemma run_to_boundary k : ∀ w w',
  let N := NumRows (ExtReps (ss w)) in
  0 ≤ Trial (ss w) →
  Trial (ss w) + Z.of_nat (S k) = N →
  N < 2 ^ 63 →
  run_trials (S k) w = Ok tt w' →
  ∃ l,
    osses (hist w') = osses (hist w) ++ l ∧
    length l = S k ∧
    holds (EpcLog (ss w')) "OutSSE" (Epoch (ss w))
      (F64_of_f32 (F32.div (sum32 (OutSumSSE (Sum (ss w))) l) (F32.of_int N))) ∧
    Trial (ss w') = 0 ∧
    Epoch (ss w') = int_add (Epoch (ss w)) 1 ∧
    Sum (ss w') = Sums_zero ∧
    NumRows (ExtReps (ss w')) = N.
Proof.
  induction k as [|k IH]; intros w w' N Ht HN Hlt Hrun.
  - apply run_trials_S in Hrun as (w1 & H1 & Hrun).
    cbn [run_trials] in Hrun. injection Hrun as <-.
    apply TrainTrial_post in H1
      as (r0 & r1 & e0 & e1 & e2 & Hh & T0 & T1 & T2 & HR & _ & _ & Hb).
    cbn zeta in Hb. fold N in Hb.
    assert (Hi : int_add (Trial (ss w)) 1 = N).
    { unfold int_add. rewrite wrap64_small; lia. }
    rewrite Hi, Z.leb_refl in Hb. destruct Hb as (Hb1 & Hb2 & Hb3 & Hb4).
    exists [osse r0]. cbn [land ss hist set_StopNow]. wp_simpl.
    rewrite Hh, !osses_app, (tally_osses _ _ _ T0), (tally_osses _ _ _ T1),
      (tally_osses _ _ _ T2).
    repeat split; try done.
  - apply run_trials_S in Hrun as (w1 & H1 & Hrun).
    apply TrainTrial_post in H1
      as (r0 & r1 & e0 & e1 & e2 & Hh & T0 & T1 & T2 & HR & _ & _ & Hb).
    cbn zeta in Hb. fold N in Hb.
    assert (Hi : int_add (Trial (ss w)) 1 = Trial (ss w) + 1).
    { unfold int_add. rewrite wrap64_small; lia. }
    rewrite Hi in Hb.
    destruct (N <=? Trial (ss w) + 1) eqn:E; [lia|].
    destruct Hb as (Hb1 & Hb2 & Hb3 & Hb4).
    specialize (IH (land w1) w'). cbn zeta in IH.
    cbn [land ss hist] in IH. wp_simpl_in IH.
    rewrite Hb1, Hb2, Hb3, HR in IH. fold N in IH.
    destruct IH as (l & Hl1 & Hl2 & Hl3 & Hl4 & Hl5 & Hl6 & Hl7);
      [lia | lia | lia | exact Hrun |].
    exists (osse r0 :: l).
    rewrite Hl1, Hh, !osses_app, (tally_osses _ _ _ T0),
      (tally_osses _ _ _ T1), (tally_osses _ _ _ T2).
    repeat split; try done.
    + cbn. by rewrite <- app_assoc.
    + cbn. by rewrite Hl2.
Qed.

End Epochs.

(** ** Blindness to the stop flag and to [Test] *)

Section BlindLemmas.
Context `{C : Collab}.
Implicit Types (w : World) (s : Sim) (e : Eraser).

Lemma erase_land e w1 w2 :
  erase e w1 = erase e w2 → erase e (land w1) = erase e (land w2).
Proof.
  destruct e; intros H.
  - exact H.
  - change (land (erase ETest w1) = land (erase ETest w2)). by rewrite H.
Qed.

Lemma blind_ret e {A} (a : A) : Blind e (ret a).
Proof. by intros w1 w2 H. Qed.

Lemma blind_panic e {A} p : Blind e (@panic _ A p).
Proof. by intros w1 w2 H. Qed.

Lemma blind_bind e {A B} (m : M A) (f : A → M B) :
  Blind e m → (∀ a, Blind e (f a)) → Blind e (bind m f).
Proof.
  intros Hm Hf w1 w2 H. unfold bind. specialize (Hm w1 w2 H).
  destruct (m w1) as [a1 w1'|], (m w2) as [a2 w2'|]; cbn in Hm; try done.
  destruct Hm as [-> Hm]. by apply Hf, erase_land.
Qed.

Lemma blind_gets e {A} (f : Sim → A) :
  (∀ w, f (ss w) = f (ss (erase e w))) → Blind e (gets f).
Proof.
  intros Hf w1 w2 H. cbn. split; [|done]. by rewrite (Hf w1), (Hf w2), H.
Qed.

Lemma blind_upd e (f : Sim → Sim) :
  (∀ w, erase e (set_ss (f (ss w)) w) =
        erase e (set_ss (f (ss (erase e w))) (erase e w))) →
  Blind e (upd f).
Proof.
  intros Hf w1 w2 H. cbn [upd Rres]. split; [done|].
  by rewrite (Hf w1), (Hf w2), H.
Qed.

Lemma blind_emit e ev : Blind e (emit ev).
Proof.
  intros w1 w2 H. cbn [emit Rres]. split; [done|].
  pose (g w := mkWorld (ss w) (rnd w) (hist w ++ [ev]) (pending w)).
  change (erase e (g w1) = erase e (g w2)).
  assert (Hg : ∀ w, erase e (g w) = g (erase e w)) by (by destruct e).
  by rewrite !Hg, H.
Qed.

Lemma blind_with_rand e {A} (f : Sim → Rand → A * Rand) :
  (∀ w, f (ss w) (rnd w) = f (ss (erase e w)) (rnd (erase e w))) →
  Blind e (with_rand f).
Proof.
  intros Hf w1 w2 H. unfold with_rand.
  rewrite (Hf w1), (Hf w2), H.
  destruct (f _ _) as [a r]. cbn [Rres]. split; [done|].
  pose (g w := mkWorld (ss w) r (hist w) (pending w)).
  change (erase e (g w1) = erase e (g w2)).
  assert (Hg : ∀ w, erase e (g w) = g (erase e w)) by (by destruct e).
  by rewrite !Hg, H.
Qed.

Lemma blind_unwrap e {A} p (o : option A) : Blind e (unwrap p o).
Proof. destruct o; [apply blind_ret|apply blind_panic]. Qed.

Lemma blind_when e (b : bool) m : Blind e m → Blind e (when b m).
Proof. destruct b; [done|]. intros _. apply blind_ret. Qed.

Lemma blind_for_from e n i body :
  (∀ j, Blind e (body j)) → Blind e (for_from n i body).
Proof.
  intros Hb. revert i. induction n as [|n IH]; intros i; cbn [for_from].
  - apply blind_ret.
  - apply blind_bind; [apply Hb|]. intros _. apply IH.
Qed.

Lemma blind_range_from e {A} (l : list A) i body :
  (∀ j x, Blind e (body j x)) → Blind e (range_from l i body).
Proof.
  intros Hb. revert i. induction l as [|x l IH]; intros i; cbn [range_from].
  - apply blind_ret.
  - apply blind_bind; [apply Hb|]. intros _. apply IH.
Qed.

End BlindLemmas.

(** The side conditions: the function at hand does not look at the
    erased fields. *)
Ltac blind_side :=
  let w := fresh "w" in
  intros w; destruct w as [? ? ? ?];
  lazymatch goal with
  | e : Eraser |- _ => destruct e; try destruct_table; reflexivity
  end
with destruct_table :=
  match goal with t : TableId |- _ => destruct t end.

Ltac blind_step :=
  lazymatch goal with
  | |- Blind _ (bind _ _) => apply blind_bind; [|intros ?]
  | |- Blind _ (ret _) => apply blind_ret
  | |- Blind _ (panic _) => apply blind_panic
  | |- Blind _ (gets _) => apply blind_gets; blind_side
  | |- Blind _ (upd _) => apply blind_upd; blind_side
  | |- Blind _ (emit _) => apply blind_emit
  | |- Blind _ (with_rand _) => apply blind_with_rand; blind_side
  | |- Blind _ (unwrap _ _) => apply blind_unwrap
  | |- Blind _ (when _ _) => apply blind_when
  | |- Blind _ (for_range _ _) => unfold for_range
  | |- Blind _ (for_from _ _ _) => apply blind_for_from; intros ?
  | |- Blind _ (range_over _ _) => unfold range_over
  | |- Blind _ (range_from _ _ _) => apply blind_range_from; intros ? ?
  | |- Blind _ (if ?b then _ else _) => destruct b
  | |- Blind _ (match ?x with _ => _ end) => destruct x
  | |- Blind _ (net_call _ _) => unfold net_call
  | |- Blind _ (net_rand_call _ _) => unfold net_rand_call
  | |- Blind _ (LayerByName _) => unfold LayerByName
  | |- Blind _ (ColFloat32 _ _) => unfold ColFloat32
  | |- Blind _ (ApplyExt _ _) => unfold ApplyExt
  | |- Blind _ (SetType _ _) => unfold SetType
  | |- Blind _ (Col_RowCellSize _ _) => unfold Col_RowCellSize
  | |- Blind _ (Col_SetFloat1D _ _ _ _) => unfold Col_SetFloat1D
  | |- Blind _ (upd_Sum _) => unfold upd_Sum
  | |- Blind _ (upd_Epc _) => unfold upd_Epc
  | |- Blind _ UpdateView => unfold UpdateView
  | |- Blind _ (ActMAvg _) => unfold ActMAvg
  | |- Blind _ (log_f32 _ _ _) => unfold log_f32
  | |- Blind _ (log_int _ _ _) => unfold log_int
  | |- Blind _ PlotEpcLog => unfold PlotEpcLog
  | |- Blind _ PermuteInts_Porder => unfold PermuteInts_Porder
  | |- Blind _ (ClearRelay _ _ _) => unfold ClearRelay
  | |- Blind _ (CaptureRelay _ _ _) => unfold CaptureRelay; cbn zeta
  | |- Blind _ (TrainTrial_body _ _ _) => unfold TrainTrial_body; cbn zeta
  | |- Blind _ (TrainTrial_loop _ _ _ _) => cbn [TrainTrial_loop]
  end.

Section BlindPrograms.
Context `{C : Collab}.
Implicit Types (w : World) (s : Sim) (e : Eraser).

Lemma AlphaCyc_blind e train : Blind e (AlphaCyc train).
Proof. unfold AlphaCyc. repeat blind_step. Qed.

Lemma ApplyInputs_blind e tbl row : Blind e (ApplyInputs tbl row).
Proof. unfold ApplyInputs. repeat blind_step. Qed.

Lemma TrialStats_blind e accum : Blind e (TrialStats accum).
Proof. unfold TrialStats. repeat blind_step. Qed.

Lemma LogEpoch_blind e : Blind e LogEpoch.
Proof. unfold LogEpoch. repeat blind_step. Qed.

End BlindPrograms.

Ltac blind_prog :=
  repeat first
    [ lazymatch goal with
      | |- Blind _ (AlphaCyc _) => apply AlphaCyc_blind
      | |- Blind _ (ApplyInputs _ _) => apply ApplyInputs_blind
      | |- Blind _ (TrialStats _) => apply TrialStats_blind
      | |- Blind _ LogEpoch => apply LogEpoch_blind
      end
    | blind_step ].

Section BlindTrial.
Context `{C : Collab}.
Implicit Types (w : World) (s : Sim) (e : Eraser).

Lemma TrainTrial_blind e : Blind e TrainTrial.
Proof. unfold TrainTrial. blind_prog. Qed.

(** What agreeing up to an erasure gives. *)
Lemma erase_stop_fields w1 w2 :
  erase EStop w1 = erase EStop w2 →
  hist w1 = hist w2 ∧ rnd w1 = rnd w2 ∧
  Net (ss w1) = Net (ss w2) ∧ ExtReps (ss w1) = ExtReps (ss w2) ∧
  EpcLog (ss w1) = EpcLog (ss w2) ∧ Epc (ss w1) = Epc (ss w2) ∧
  Sum (ss w1) = Sum (ss w2) ∧ Trial (ss w1) = Trial (ss w2) ∧
  Epoch (ss w1) = Epoch (ss w2) ∧ AlphaCycle (ss w1) = AlphaCycle (ss w2) ∧
  Porder (ss w1) = Porder (ss w2).
Proof. cbn. intros [= ]. by repeat split. Qed.

Lemma erase_test_fields w1 w2 :
  erase ETest w1 = erase ETest w2 →
  hist w1 = hist w2 ∧ rnd w1 = rnd w2 ∧ pending w1 = pending w2 ∧
  Net (ss w1) = Net (ss w2) ∧ ExtReps (ss w1) = ExtReps (ss w2) ∧
  EpcLog (ss w1) = EpcLog (ss w2) ∧ Epc (ss w1) = Epc (ss w2) ∧
  Sum (ss w1) = Sum (ss w2) ∧ Trial (ss w1) = Trial (ss w2) ∧
  Epoch (ss w1) = Epoch (ss w2) ∧ AlphaCycle (ss w1) = AlphaCycle (ss w2) ∧
  Porder (ss w1) = Porder (ss w2) ∧ StopNow (ss w1) = StopNow (ss w2).
Proof. cbn. intros [= ]. by repeat split. Qed.

End BlindTrial.

(** ** The engine's calls, replayed *)

Section ReplayLemmas.
Context `{C : Collab}.
Implicit Types (w : World) (s : Sim).

Lemma replay_app l1 l2 st : replay (l1 ++ l2) st = replay l2 (replay l1 st).
Proof. revert st. induction l1 as [|e l1 IH]; intros st; cbn; auto. Qed.

Lemma replay_reports y st : reports y → replay y st = st.
Proof.
  unfold reports. revert st. induction y as [|e y IH]; intros st H; [done|].
  cbn in H. apply andb_prop in H as [He Hy]. cbn [replay].
  assert (E : engine_step e st = st) by (destruct st as [[n t] r]; by destruct e).
  rewrite E. by apply IH.
Qed.

Lemma reports_app y1 y2 : reports y1 → reports y2 → reports (y1 ++ y2).
Proof. unfold reports. intros H1 H2. by rewrite forallb_app, H1, H2. Qed.

Lemma reports_count p y :
  (∀ e, is_report e = true → p e = false) → reports y → count p y = 0%nat.
Proof.
  intros Hp. unfold reports, count. induction y as [|e y IH]; [done|].
  cbn. intros H. apply andb_prop in H as [He Hy]. rewrite (Hp e He). by apply IH.
Qed.

Lemma reports_stats y : reports y → stats_of y = [].
Proof.
  unfold reports. induction y as [|e y IH]; [done|].
  cbn. intros H. apply andb_prop in H as [He Hy]. destruct e; try done; by apply IH.
Qed.

Lemma reports_tally y : reports y → tally y = (0%nat, 0%nat, []).
Proof.
  intros H. unfold tally.
  rewrite (reports_count is_DWt), (reports_count is_WtFmDWt), reports_stats;
    try done; by intros [].
Qed.

Lemma learnt_tally x y :
  settles x → reports y → tally (x ++ [EvDWt; EvWtFmDWt] ++ y) = (1%nat, 1%nat, []).
Proof.
  intros (_ & Hd & Hw & Hs) Hy. rewrite !tally_app, (reports_tally y Hy).
  unfold tally. by rewrite Hd, Hw, Hs.
Qed.

Lemma wp_for_count (I : nat → World → Prop) n : ∀ k0 i body Q w,
  I k0 w →
  (∀ k j w1, I k w1 →
     wp (body j) (λ _ w2, ∀ b p, I (S k) (stopped b p w2)) w1) →
  (∀ w', I (k0 + n)%nat w' → Q tt w') →
  wp (for_from n i body) Q w.
Proof.
  induction n as [|n IH]; intros k0 i body Q w HI Hbody HQ; cbn [for_from].
  - apply wp_ret, HQ. by rewrite Nat.add_0_r.
  - apply wp_bind. eapply wp_mono; [by apply Hbody|].
    cbn beta. intros _ w2 H2 b p. apply (IH (S k0)); [done|done|].
    intros w' Hw'. apply HQ. by rewrite Nat.add_succ_r.
Qed.

Lemma Traced_intro s r0 h q n t b r p evs h' :
  h' = h ++ evs →
  (count is_QuarterFinal evs, count is_DWt evs, count is_WtFmDWt evs,
   stats_of evs) = (q, 0%nat, 0%nat, []) →
  replay evs (Net s, Time s, r0) = (n, t, r) →
  Traced s r0 h q (mkWorld (set_Net n (set_Time t (set_StopNow b s))) r h' p).
Proof. intros -> Hk Hr. by exists n, t, b, r, p, evs. Qed.

End ReplayLemmas.

Section TracedLemmas.
Context `{C : Collab}.
Implicit Types (w : World) (s : Sim).

Lemma Traced_world s r0 h q s' r p evs h' :
  frame_eng s' = frame_eng s → h' = h ++ evs →
  count is_QuarterFinal evs = q → count is_DWt evs = 0%nat →
  count is_WtFmDWt evs = 0%nat → stats_of evs = [] →
  replay evs (Net s, Time s, r0) = (Net s', Time s', r) →
  Traced s r0 h q (mkWorld s' r h' p).
Proof.
  intros Hf -> Hq Hd Hw Hs Hr.
  exists (Net s'), (Time s'), (StopNow s'), r, p, evs.
  split; [|split; [by rewrite Hq, Hd, Hw, Hs|done]].
  f_equal. destruct s, s'; cbn in *. by simplify_eq.
Qed.

End TracedLemmas.

Ltac calls_done :=
  rewrite ?count_app, ?stats_of_app;
  repeat match goal with
         | H : count _ _ = _ |- _ => rewrite H
         | H : stats_of _ = _ |- _ => rewrite H
         end;
  first [ reflexivity | cbn; lia ].

Ltac replay_done :=
  rewrite ?replay_app;
  repeat first
    [ progress cbn [fst snd replay engine_step]
    | match goal with
      | H : replay _ _ = _ |- _ => rewrite H
      | H : Net_Cycle _ _ _ = _ |- _ => rewrite H
      end ];
  reflexivity.

Ltac traced_done :=
  intros; wp_simpl; rewrite <- ?app_assoc;
  eapply Traced_world;
  [ unfold frame_eng; wp_simpl; congruence
  | first [ exact (eq_sym (app_nil_r _)) | reflexivity ]
  | calls_done | calls_done | calls_done | calls_done
  | wp_simpl; replay_done ].

Ltac traced_open H :=
  let n := fresh "n" in let t := fresh "t" in let b := fresh "b" in
  let r := fresh "r" in let p := fresh "p" in let evs := fresh "evs" in
  let Hk := fresh "Hk" in let Hr := fresh "Hrep" in
  destruct H as (n & t & b & r & p & evs & -> & Hk & Hr);
  injection Hk as ? ? ? ?; wp_simpl_in Hr; wp_simpl.

Ltac tr_step :=
  lazymatch goal with
  | |- wp (with_rand _) _ _ =>
      apply wp_with_rand;
      let H := fresh "Hdraw" in
      intros ? ? H; cbn beta in H; wp_simpl_in H; wp_simpl
  | |- _ => wp_step
  end.

Ltac tr_to_loop :=
  repeat lazymatch goal with
         | |- wp (for_range _ _) _ _ => fail
         | |- wp (for_from _ _ _) _ _ => fail
         | |- _ => tr_step
         end.

Section TracedSpecs.
Context `{C : Collab}.
Implicit Types (w : World) (s : Sim).

Lemma ApplyInputs_traced tbl row w :
  wp (ApplyInputs tbl row)
     (λ _ w', Traced (ss w) (rnd w) (hist w) 0 w') w.
Proof.
  destruct w as [s r h p0]. unfold ApplyInputs. repeat tr_step; traced_done.
Qed.

Lemma AlphaCyc_learns w :
  wp (AlphaCyc true) (λ _ w', ∃ n t b r' p x y,
    w' = mkWorld (set_Net (Net_WtFmDWt (Net_DWt n))
                    (set_Time t (set_StopNow b (ss w))))
                 r' (hist w ++ x ++ [EvDWt; EvWtFmDWt] ++ y) p ∧
    settles x ∧ reports y ∧
    replay x (Net (ss w), Time (ss w), rnd w) = (n, t, r')) w.
Proof.
  destruct w as [s r h p0]. unfold AlphaCyc. wp_simpl.
  tr_to_loop.
  unfold for_range at 1; change (Z.to_nat 4) with 4%nat.
  apply (wp_for_count (λ k, Traced s r h k) 4 0%nat);
    [ traced_done
    | intros k j w1 HI; traced_open HI; tr_to_loop; unfold for_range;
      apply (wp_for_from (Traced s r h k));
      [ traced_done
      | intros j' w2 HI; traced_open HI; repeat tr_step; traced_done
      | intros w2 HI; traced_open HI; repeat tr_step; traced_done ]
    | intros w1 HI; traced_open HI; repeat tr_step ].
  all: rewrite <- ?app_assoc; cbn [app].
  all: lazymatch goal with
       | |- ∃ _ _ _ _ _ _ _,
              {| ss := _; rnd := _;
                 hist := _ ++ ?x ++ EvDWt :: EvWtFmDWt :: ?y;
                 pending := _ |} = _ ∧ _ =>
           eexists _, _, _, _, _, x, y
       end.
  all: (split; [reflexivity|]).
  all: (split; [by repeat split|]).
  all: (split; [reflexivity|assumption]).
Qed.

Lemma TrialStats_reports accum w :
  wp (TrialStats accum) (λ res w', ∃ b p pre sums,
    w' = mkWorld (set_Sum sums (set_StopNow b (ss w))) (rnd w)
           (hist w ++ pre ++ [EvTrialStats (AlphaCycle (ss w)) res]) p ∧
    reports pre) w.
Proof.
  destruct w as [s r h p0]. unfold TrialStats. wp_go.
  all: rewrite <- ?app_assoc.
  all: first [ eexists _, _, [], _; split; [reflexivity|reflexivity]
             | eexists _, _, [_], _; split; [reflexivity|reflexivity] ].
Qed.

End TracedSpecs.

Ltac learn_step :=
  first
    [ wp_step
    | lazymatch goal with
      | |- wp (ApplyInputs _ _) _ _ =>
          eapply wp_mono;
          [ apply ApplyInputs_traced
          | let H := fresh "HI" in cbn beta; intros _ ? H; traced_open H ]
      | |- wp (AlphaCyc true) _ _ =>
          eapply wp_mono;
          [ apply AlphaCyc_learns
          | let Hs := fresh "Hset" in let Hy := fresh "Hrpt" in
            let Hr := fresh "Hrep" in
            cbn beta;
            intros _ ? (? & ? & ? & ? & ? & ? & ? & -> & Hs & Hy & Hr);
            wp_simpl_in Hr; wp_simpl ]
      | |- wp (CaptureRelay _ _ _) _ _ =>
          eapply wp_mono;
          [ apply CaptureRelay_spec
          | cbn beta zeta; intros ? ? (? & ? & ? & ? & _ & _ & -> & ->);
            wp_simpl ]
      | |- wp (TrialStats _) _ _ =>
          eapply wp_mono;
          [ apply TrialStats_reports
          | let Hy := fresh "Hrpt" in
            cbn beta; intros ? ? (? & ? & ? & ? & -> & Hy); wp_simpl ]
      | |- wp LogEpoch _ _ =>
          eapply wp_mono;
          [ apply LogEpoch_spec
          | cbn beta zeta; intros _ ? (? & ? & ? & ? & -> & _); wp_simpl ]
      | |- wp (TrainTrial_loop _ _ _ _) _ _ => cbn [TrainTrial_loop]
      | |- wp (TrainTrial_body _ _ _) _ _ => unfold TrainTrial_body
      | |- wp (ClearRelay _ _ _) _ _ =>
          unfold ClearRelay, for_range; cbn [fst snd];
          change (Z.to_nat 0) with 0%nat; cbn [for_from]
      end ];
  try change (int_add 0 1) with 1; wp_simpl.

(** Split a flattened history at its first [DWt; WtFmDWt]. *)
Ltac split_learn t :=
  lazymatch t with
  | [EvDWt; EvWtFmDWt] ++ ?rest => constr:((@nil Event, rest))
  | ?x ++ ?rest =>
      let res := split_learn rest in
      lazymatch res with
      | (?pre, ?post) => constr:((x ++ pre, post))
      end
  end.

Ltac reports_done :=
  repeat first
    [ assumption
    | reflexivity
    | apply reports_app ].

Ltac settles_done :=
  repeat match goal with
         | H : settles _ |- _ => destruct H as (? & ? & ? & ?)
         end;
  repeat split; calls_done.

Section TrialLearns.
Context `{C : Collab}.
Implicit Types (w : World) (s : Sim).

Lemma TrainTrial_learns w : wp TrainTrial (λ _ w', learns w w') w.
Proof.
  destruct w as [s r h p0]. unfold TrainTrial.
  repeat learn_step.
  all: unfold learns; wp_simpl; rewrite <- ?app_assoc.
  all: lazymatch goal with
       | |- ∃ r0 r1 x0 y0 x1 y1 e2, ?h ++ ?L = _ ∧ _ =>
           let a := split_learn L in
           lazymatch a with
           | (?x0, ?R0) =>
               let b := split_stats R0 in
               lazymatch b with
               | (?y0, ?r0, ?R1) =>
                   let c := split_learn R1 in
                   lazymatch c with
                   | (?x1, ?R2) =>
                       let d := split_stats R2 in
                       lazymatch d with
                       | (?y1, ?r1, ?e2) => exists r0, r1, x0, y0, x1, y1, e2
                       end
                   end
               end
           end
       end.
  all: (split; [rewrite <- ?app_assoc; reflexivity|]).
  all: (split; [settles_done|]).
  all: (split; [reports_done|]).
  all: (split; [settles_done|]).
  all: (split; [reports_done|]).
  all: (split; [reports_done|]).
  all: cbn zeta; split; replay_done.
Qed.

End TrialLearns.

(** ** The stop request and the learning steps *)

Section StopAndLearn.
Context `{C : Collab}.
Implicit Types (w : World) (s : Sim).

Lemma Blind_Ok (e : Eraser) {A} (m : M A) w1 w2 a w2' :
  Blind e m → erase e w1 = erase e w2 → m w2 = Ok a w2' →
  ∃ w1', m w1 = Ok a w1' ∧ erase e w1' = erase e w2'.
Proof.
  intros Hm H H2. specialize (Hm w1 w2 H). rewrite H2 in Hm.
  destruct (m w1) as [a1 w1'|]; [|done]. destruct Hm as [-> Hm]. by exists w1'.
Qed.

(** C7.  A stop request that lands at any step of a trial ([k] steps
    after the trial began) changes nothing of what the trial does: both
    sub-phases, the statistics and the log write happen as without the
    request.  The loops of [TrainEpoch] and [Train] read the flag after
    [TrainTrial] has returned, and leave then without another step. *)
Theorem stop_waits_for_trial_end w w' k :
  TrainTrial w = Ok tt w' →
  ∃ w'',
    TrainTrial (set_pending (Some k) w) = Ok tt w'' ∧
    hist w'' = hist w' ∧ Net (ss w'') = Net (ss w') ∧
    ExtReps (ss w'') = ExtReps (ss w') ∧ EpcLog (ss w'') = EpcLog (ss w') ∧
    Sum (ss w'') = Sum (ss w') ∧ Trial (ss w'') = Trial (ss w') ∧
    Epoch (ss w'') = Epoch (ss w') ∧
    (StopNow (ss (land w'')) = true →
     ∀ fuel curEpc,
       ∃ w3 w4,
         TrainEpoch_loop (S fuel) curEpc (set_pending (Some k) w) = Ok tt w3 ∧
         Train_loop (S fuel) (set_pending (Some k) w) = Ok tt w4 ∧
         erase EStop w3 = erase EStop w'' ∧ erase EStop w4 = erase EStop w'').
Proof.
  intros H.
  destruct (Blind_Ok EStop TrainTrial (set_pending (Some k) w) w tt w'
              (TrainTrial_blind EStop) eq_refl H) as (w'' & H1 & He).
  exists w''. split; [done|].
  destruct (erase_stop_fields _ _ He)
    as (? & ? & ? & ? & ? & ? & ? & ? & ? & ? & ?).
  repeat (split; [done|]).
  intros Hs fuel curEpc.
  exists (land (land (land w''))), (land (land (land (land w'')))).
  cbn [TrainEpoch_loop Train_loop]. unfold bind at 1 4. rewrite H1.
  unfold bind, gets. rewrite Hs. cbn [orb ret].
  repeat split; reflexivity.
Qed.

(** C10.  Every trial runs the learning step of each of its two
    sub-phases, and runs it on the network.  The history of a trial is:
    the settle of sub-phase 0 (four quarters, no learning call), [DWt],
    [WtFmDWt], the statistics of sub-phase 0, the settle of sub-phase 1,
    [DWt], [WtFmDWt], the statistics of sub-phase 1; between and after
    them only view updates and printed lines.  So each sub-phase has
    exactly one [DWt] and one [WtFmDWt], and there is none after.  And
    the calls are made: the network the trial leaves is the network that
    the settle of sub-phase 1 gives, started from the network that the
    settle of sub-phase 0 gave with [DWt] and then [WtFmDWt] applied to
    it, and with [DWt] and then [WtFmDWt] applied again.  The [Test]
    field has no part in it: with any value of [Test] the trial makes
    the same calls and leaves the same network. *)
Theorem learning_in_both_subphases w w' :
  TrainTrial w = Ok tt w' →
  (∃ r0 r1 x0 y0 x1 y1 e2,
     hist w' = hist w ++ (x0 ++ [EvDWt; EvWtFmDWt] ++ y0)
                 ++ [EvTrialStats 0 r0]
                 ++ (x1 ++ [EvDWt; EvWtFmDWt] ++ y1)
                 ++ [EvTrialStats 1 r1] ++ e2 ∧
     settles x0 ∧ reports y0 ∧ settles x1 ∧ reports y1 ∧ reports e2 ∧
     tally (x0 ++ [EvDWt; EvWtFmDWt] ++ y0) = (1%nat, 1%nat, []) ∧
     tally (x1 ++ [EvDWt; EvWtFmDWt] ++ y1) = (1%nat, 1%nat, []) ∧
     tally e2 = (0%nat, 0%nat, []) ∧
     let st0 := replay x0 (Net (ss w), Time (ss w), rnd w) in
     let st1 := replay x1 (Net_WtFmDWt (Net_DWt st0.1.1), st0.1.2, st0.2) in
     Net (ss w') = Net_WtFmDWt (Net_DWt st1.1.1) ∧ Time (ss w') = st1.1.2) ∧
  (∀ b, ∃ w'',
     TrainTrial (set_ss (set_Test b (ss w)) w) = Ok tt w'' ∧
     hist w'' = hist w' ∧ Net (ss w'') = Net (ss w') ∧
     Sum (ss w'') = Sum (ss w') ∧ EpcLog (ss w'') = EpcLog (ss w')).
Proof.
  intros H. split.
  - destruct (wp_elim _ _ _ _ _ H (TrainTrial_learns w))
      as (r0 & r1 & x0 & y0 & x1 & y1 & e2 & Hh & S0 & R0 & S1 & R1 & R2 & Hn).
    exists r0, r1, x0, y0, x1, y1, e2.
    repeat (split; [done|]).
    split; [by apply learnt_tally|]. split; [by apply learnt_tally|].
    split; [by apply reports_tally|]. exact Hn.
  - intros b.
    destruct (Blind_Ok ETest TrainTrial (set_ss (set_Test b (ss w)) w) w tt w'
                (TrainTrial_blind ETest)) as (w'' & H1 & He); [|done|].
    { by destruct w as [[] ? ? ?]. }
    exists w''. split; [done|].
    destruct (erase_test_fields _ _ He)
      as (? & ? & ? & ? & ? & ? & ? & ? & ? & ? & ? & ? & ?).
    by repeat split.
Qed.

End StopAndLearn.

(** ** Float32: a sum of squares above the tolerance is not zero *)

Section Float32.

Lemma iter_pos_nat {A} (f : A → A) p x :
  SpecFloat.iter_pos f p x = Nat.iter (Pos.to_nat p) f x.
Proof.
  revert x. induction p as [p IH|p IH|]; intros x; cbn [SpecFloat.iter_pos].
  - rewrite !IH, Pos2Nat.inj_xI. cbn [Nat.iter].
    rewrite <- Nat.iter_add. replace (Pos.to_nat p + Pos.to_nat p)%nat
      with (2 * Pos.to_nat p)%nat by lia.
    by rewrite Nat.iter_succ_r.
  - rewrite !IH, Pos2Nat.inj_xO, <- Nat.iter_add. f_equal. lia.
  - done.
Qed.

(** Shifting right by fewer places than the number has digits leaves a
    positive mantissa. *)
Lemma shr_iter_pos n : ∀ m r s,
  (n < Pos.to_nat (digits2_pos m))%nat →
  ∃ m', shr_m (Nat.iter n shr_1 (Build_shr_record (Z.pos m) r s)) = Z.pos m'.
Proof.
  induction n as [|n IH]; intros m r s Hn.
  - by exists m.
  - rewrite Nat.iter_succ_r.
    destruct m as [m|m|]; cbn [shr_1 digits2_pos] in *.
    + apply IH. rewrite Pos2Nat.inj_succ in Hn. lia.
    + apply IH. rewrite Pos2Nat.inj_succ in Hn. lia.
    + cbn in Hn. lia.
Qed.

Lemma shr_record_of_loc_m m l : shr_m (shr_record_of_loc m l) = m.
Proof. by destruct l as [|[]]. Qed.

Lemma shr_fexp_pos m e l :
  -149 ≤ e →
  ∃ m' e', shr_m (shr_fexp F32.prec F32.emax (Z.pos m) e l).1 = Z.pos m' ∧
           (shr_fexp F32.prec F32.emax (Z.pos m) e l).2 = e' ∧ -149 ≤ e'.
Proof.
  intros He. unfold shr_fexp, shr, fexp, emin, Zdigits2, F32.prec, F32.emax.
  destruct (Z.max _ _ - e) as [|p|p] eqn:E; cbn [fst snd].
  - exists m, e. by rewrite shr_record_of_loc_m.
  - rewrite iter_pos_nat.
    destruct (shr_record_of_loc (Z.pos m) l) as [m0 r s] eqn:El.
    assert (m0 = Z.pos m) as ->.
    { by rewrite <- (shr_record_of_loc_m (Z.pos m) l), El. }
    destruct (shr_iter_pos (Pos.to_nat p) m r s) as [m' Hm'].
    { assert (Z.pos p < Z.pos (digits2_pos m)) by lia. lia. }
    exists m', (e + Z.pos p). split; [done|]. split; [done|lia].
  - exists m, e. by rewrite shr_record_of_loc_m.
Qed.

Lemma round_nearest_even_pos m l :
  ∃ m', round_nearest_even (Z.pos m) l = Z.pos m'.
Proof.
  destruct l as [|[]]; cbn [round_nearest_even]; try by eexists.
  destruct (Z.even _); by eexists.
Qed.

Lemma binary_round_aux_pos m e l :
  -149 ≤ e → pos (binary_round_aux F32.prec F32.emax false (Z.pos m) e l).
Proof.
  intros He. unfold binary_round_aux.
  destruct (shr_fexp_pos m e l He) as (m1 & e1 & H1 & H2 & H3).
  destruct (shr_fexp _ _ (Z.pos m) e l) as [mrs1 e1'] eqn:E1.
  cbn [fst snd] in *. subst e1'.
  destruct (round_nearest_even_pos m1 (loc_of_shr_record mrs1)) as [m2 H4].
  rewrite H1, H4.
  destruct (shr_fexp_pos m2 e1 loc_Exact H3) as (m3 & e3 & H5 & H6 & H7).
  destruct (shr_fexp _ _ (Z.pos m2) e1 loc_Exact) as [mrs3 e3'] eqn:E3.
  cbn [fst snd] in *. subst e3'. rewrite H5.
  destruct (_ <=? _); [right; right; by exists m3, e3|right; by left].
Qed.

Lemma mul_self_pos d :
  F32.ltb (F32.abs d) F32.half = false → pos (F32.mul d d).
Proof.
  destruct d as [s|s| |s m e]; intros H.
  - destruct s; vm_compute in H; discriminate H.
  - right; left. by destruct s.
  - by left.
  - assert (-24 ≤ e).
    { unfold F32.ltb, SFltb, F32.abs, SFabs, F32.half, SFcompare in H.
      destruct (e ?= -24) eqn:E; try discriminate H.
      - apply Z.compare_eq in E. lia.
      - apply Z.compare_gt_iff in E. lia. }
    unfold F32.mul, SFmul.
    replace (xorb s s) with false by (by destruct s).
    apply binary_round_aux_pos. lia.
Qed.

Lemma binary_round_pos m e :
  -149 ≤ e → pos (binary_round F32.prec F32.emax false m e).
Proof.
  intros He. unfold binary_round, shl_align.
  destruct (fexp _ _ _ - e) eqn:E; try by apply binary_round_aux_pos.
  apply binary_round_aux_pos. unfold fexp, emin, F32.prec, F32.emax. lia.
Qed.

Lemma add_pos x y : pos x → pos y → pos (F32.add x y).
Proof.
  intros [->|[->|(mx & ex & -> & Hx)]] [->|[->|(my & ey & -> & Hy)]];
    try (by left); try (right; by left).
  unfold F32.add, SFadd, binary_normalize, cond_Zopp.
  cbn [Z.add]. apply binary_round_pos. lia.
Qed.

Lemma add_zero_pos y : pos y → pos (F32.add F32.zero y).
Proof.
  intros [->|[->|(my & ey & -> & Hy)]];
    [by left|right; by left|right; right; by exists my, ey].
Qed.

Lemma pos_nonzero x : pos x → F32.neb x F32.zero = true.
Proof. intros [->|[->|(m & e & -> & H)]]; reflexivity. Qed.

End Float32.

(** ** The mismatch counters *)

Section Counters.
Context `{C : Collab}.
Implicit Types (w : World) (s : Sim).

Lemma oge_loop_spec goal : ∀ i outcome acc oge,
  oge_loop F32.half goal (Z.of_nat i) outcome acc = Some oge →
  acc = F32.zero ∨ pos acc →
  if any_exceeds goal (drop i outcome) then pos oge else oge = acc.
Proof.
  induction goal as [|ng goal IH]; intros i outcome acc oge H Hacc.
  - cbn in *. by simplify_eq.
  - cbn [oge_loop] in H.
    destruct (slice_get outcome (Z.of_nat i)) as [no|] eqn:Eg; [|done].
    assert (Hno : outcome !! i = Some no).
    { unfold slice_get in Eg. destruct (in_range _ _); [|done].
      by rewrite Nat2Z.id in Eg. }
    rewrite (drop_S _ _ _ Hno). unfold any_exceeds. cbn [zip zip_with existsb fst snd].
    fold (any_exceeds goal (drop (S i) outcome)).
    replace (Z.of_nat i + 1) with (Z.of_nat (S i)) in H by lia.
    unfold within_tol at 1.
    destruct (F32.ltb (F32.abs (F32.sub ng no)) F32.half) eqn:Et; cbn [negb orb].
    + by apply IH.
    + assert (Hp : pos (F32.add acc (F32.mul (F32.sub ng no) (F32.sub ng no)))).
      { destruct Hacc as [->|Hacc].
        - by apply add_zero_pos, mul_self_pos.
        - by apply add_pos; [|apply mul_self_pos]. }
      specialize (IH _ _ _ _ H (or_intror Hp)).
      destruct (any_exceeds goal (drop (S i) outcome)); [done|by subst].
Qed.

Lemma oge_nonzero goal outcome oge :
  oge_loop F32.half goal 0 outcome F32.zero = Some oge →
  F32.neb oge F32.zero = any_exceeds goal outcome.
Proof.
  intros H. pose proof (oge_loop_spec goal 0 outcome F32.zero oge H) as Hs.
  rewrite drop_0 in Hs. destruct (any_exceeds goal outcome).
  - apply pos_nonzero, Hs. by left.
  - by rewrite Hs; [|left].
Qed.

(** C5.  In the sub-phase-0 statistics with accumulation, the
    goal-vs-outcome counter goes up by exactly 1 if at least one unit of
    the Goal layer differs from its Outcome unit by the tolerance 0.5 or
    more, however many do, and stays as it is if every difference is
    within the tolerance; the outcome prediction counter likewise goes up
    by 1 exactly if the outcome SSE is not zero. *)
Theorem mismatch_counted_once_per_trial w res w' :
  AlphaCycle (ss w) = 0 →
  TrialStats true w = Ok res w' →
  let goal := Lay_Neurons_ActM (Net (ss w)) "Goal" in
  let outcome := Lay_Neurons_ActM (Net (ss w)) "Outcome" in
  OutGoalCntErr (Sum (ss w')) =
    (if any_exceeds goal outcome then int_add (OutGoalCntErr (Sum (ss w))) 1
     else OutGoalCntErr (Sum (ss w))) ∧
  OutPredCntErr (Sum (ss w')) =
    (if F32.neb (osse res) F32.zero then int_add (OutPredCntErr (Sum (ss w))) 1
     else OutPredCntErr (Sum (ss w))).
Proof.
  intros Hac H.
  pose proof (wp_elim _ _ _ _ _ H (TrialStats_spec true w))
    as (b & p & pre & oge & -> & _ & Ho).
  destruct (Ho Hac) as [Hoge _]. cbn zeta. wp_simpl.
  rewrite Hac. cbn [TrialStats_sums Z.eqb OutGoalCntErr OutPredCntErr andb].
  by rewrite (oge_nonzero _ _ _ Hoge).
Qed.

End Counters.

(** ** A failed read of the produced activity *)

Section TotalRules.
Context `{C : Collab}.
Implicit Types (w : World) (s : Sim).

Lemma twp_elim {A} (m : M A) Q w :
  twp m Q w → ∃ a w', m w = Ok a w' ∧ Q a w'.
Proof. unfold twp. destruct (m w) as [a w'|]; [|done]. by exists a, w'. Qed.

Lemma twp_mono {A} (m : M A) (Q Q' : A → World → Prop) w :
  twp m Q w → (∀ a w', Q a w' → Q' a w') → twp m Q' w.
Proof. unfold twp. destruct (m w); auto. Qed.

Lemma twp_bind {A B} (m : M A) (f : A → M B) Q w :
  twp m (λ a w', ∀ b p, twp (f a) Q (stopped b p w')) w → twp (bind m f) Q w.
Proof.
  unfold twp, bind. destruct (m w) as [a w'|]; [|done].
  intros H. rewrite land_stopped. apply H.
Qed.

Lemma twp_ret {A} (a : A) Q w : Q a w → twp (ret a) Q w.
Proof. done. Qed.

Lemma twp_gets {A} (f : Sim → A) Q w : Q (f (ss w)) w → twp (gets f) Q w.
Proof. done. Qed.

Lemma twp_upd (f : Sim → Sim) Q w : Q tt (set_ss (f (ss w)) w) → twp (upd f) Q w.
Proof. done. Qed.

Lemma twp_unwrap {A} p (o : option A) a Q w :
  o = Some a → Q a w → twp (unwrap p o) Q w.
Proof. by intros ->. Qed.

Lemma twp_when (b : bool) m Q w :
  (b = true → twp m Q w) → (b = false → Q tt w) → twp (when b m) Q w.
Proof. destruct b; cbn; auto. Qed.

End TotalRules.

Ltac twp_step :=
  lazymatch goal with
  | |- twp (bind _ _) _ _ => apply twp_bind
  | |- twp (ret _) _ _ => apply twp_ret
  | |- twp (gets _) _ _ => apply twp_gets
  | |- twp (upd _) _ _ => apply twp_upd
  | |- twp (unwrap _ _) _ _ => eapply twp_unwrap; [eassumption|]
  | |- twp (when _ _) _ _ =>
      apply twp_when; intros ?; try absurd_bool; try congruence
  | |- twp (Col_RowCellSize _ _) _ _ => unfold Col_RowCellSize
  | |- twp (Col_SetFloat1D _ _ _ _) _ _ => unfold Col_SetFloat1D
  | |- ∀ _, _ => intro
  end; wp_simpl.

Section CaptureTotal.
Context `{C : Collab}.
Implicit Types (w : World) (s : Sim).

Lemma twp_write_loop nm off vals : ∀ i c c' w,
  ColByName (ExtReps (ss w)) nm = Some c →
  write_from c off i vals = Some c' →
  twp (range_from vals i (λ j v,
         Col_SetFloat1D TExtReps nm (int_add off j) (F64_of_f32 v)))
      (λ _ w', ∃ b p,
         w' = mkWorld (set_ExtReps (set_col (ExtReps (ss w)) nm c')
                         (set_StopNow b (ss w)))
                      (rnd w) (hist w) p) w.
Proof.
  induction vals as [|v vals IH]; intros i c c' w Hc Hw.
  - cbn [range_from write_from] in *. simplify_eq. apply twp_ret.
    exists (StopNow (ss w)), (pending w).
    rewrite (set_col_id _ _ _ Hc). destruct w as [s r h p]; cbn.
    f_equal. apply Sim_eta.
  - cbn [range_from write_from] in *. destruct w as [s r h p0]. cbn in Hc.
    destruct (SetFloat1D c (int_add off i) (F64_of_f32 v)) as [c1|] eqn:E1;
      [|done].
    repeat twp_step.
    eapply twp_mono; [eapply (IH _ c1); [wp_simpl; apply ColByName_set_col|done]|].
    cbn beta. intros _ w' (b' & p' & ->). wp_simpl.
    exists b', p'. by rewrite set_col_set_col.
Qed.

Lemma CaptureRelay_total row motorLay outcomeLay w t1 t2 :
  let mr := Lay_UnitVals (Net (ss w)) motorLay "ActP" in
  let or := Lay_UnitVals (Net (ss w)) outcomeLay "ActP" in
  capture_col (ExtReps (ss w)) "Motor" row mr = Some t1 →
  capture_col t1 "Outcome" row or = Some t2 →
  ∃ b p,
    CaptureRelay row motorLay outcomeLay w =
    Ok (Z.of_nat (length mr.1), Z.of_nat (length or.1))
       (mkWorld (set_ExtReps t2 (set_StopNow b (ss w))) (rnd w) (hist w) p).
Proof.
  intros mr or H1 H2.
  cut (twp (CaptureRelay row motorLay outcomeLay)
         (λ sz w', ∃ b p,
            sz = (Z.of_nat (length mr.1), Z.of_nat (length or.1)) ∧
            w' = mkWorld (set_ExtReps t2 (set_StopNow b (ss w)))
                   (rnd w) (hist w) p) w).
  { intros (sz & w' & Hr & b & p & -> & ->)%twp_elim. by exists b, p. }
  subst mr or. destruct w as [s r h p0]. cbn [ss rnd hist] in *.
  unfold capture_col in H1.
  destruct (ColByName (ExtReps s) "Motor") as [cm|] eqn:Em; [|done].
  unfold CaptureRelay. cbn zeta.
  destruct (bool_decide ((Lay_UnitVals (Net s) motorLay "ActP").2 = None))
    eqn:Dm.
  - destruct (write_from cm _ 0 _) as [cm'|] eqn:Wm; [|done]. simplify_eq.
    unfold capture_col in H2.
    destruct (ColByName (set_col (ExtReps s) "Motor" cm') "Outcome")
      as [co|] eqn:Eo; [|done].
    destruct (bool_decide ((Lay_UnitVals (Net s) outcomeLay "ActP").2 = None))
      eqn:Do.
    + destruct (write_from co _ 0 _) as [co'|] eqn:Wo; [|done]. simplify_eq.
      repeat twp_step. unfold range_over.
      eapply twp_mono; [by eapply twp_write_loop|].
      cbn beta. intros _ w' (b' & p' & ->).
      repeat twp_step. repeat twp_step. unfold range_over.
      eapply twp_mono; [by eapply twp_write_loop|].
      cbn beta. intros _ w' (b'' & p'' & ->).
      repeat twp_step. by eexists _, _.
    + simplify_eq. repeat twp_step. unfold range_over.
      eapply twp_mono; [by eapply twp_write_loop|].
      cbn beta. intros _ w' (b' & p' & ->).
      repeat twp_step. repeat twp_step. by eexists _, _.
  - simplify_eq. unfold capture_col in H2.
    destruct (ColByName (ExtReps s) "Outcome") as [co|] eqn:Eo; [|done].
    destruct (bool_decide ((Lay_UnitVals (Net s) outcomeLay "ActP").2 = None))
      eqn:Do.
    + destruct (write_from co _ 0 _) as [co'|] eqn:Wo; [|done]. simplify_eq.
      repeat twp_step. repeat twp_step. unfold range_over.
      eapply twp_mono; [by eapply twp_write_loop|].
      cbn beta. intros _ w' (b'' & p'' & ->).
      repeat twp_step. by eexists _, _.
    + simplify_eq. repeat twp_step. repeat twp_step.
      by eexists _, _.
Qed.

End CaptureTotal.

Section CaptureClaim.
Context `{C : Collab}.
Implicit Types (w : World) (s : Sim).

Lemma write_from_values vals : ∀ i cells vs off,
  0 ≤ off → 0 ≤ i →
  off + i + Z.of_nat (length vals) ≤ Z.of_nat (length vs) < 2 ^ 63 →
  write_from (TFloat32 cells vs) off i vals =
  Some (TFloat32 cells
          (take (Z.to_nat (off + i)) vs ++ vals ++
           drop (Z.to_nat (off + i) + length vals) vs)).
Proof.
  induction vals as [|v vals IH]; intros i cells vs off Ho Hi Hlen.
  - cbn [write_from app length]. by rewrite Nat.add_0_r, take_drop.
  - cbn [write_from length] in *.
    assert (Ha : int_add off i = off + i).
    { unfold int_add. apply wrap64_small. lia. }
    rewrite Ha. unfold SetFloat1D, slice_set, in_range.
    replace ((0 <=? off + i) && (off + i <? Z.of_nat (length vs))) with true
      by (symmetry; apply andb_true_intro; split; lia).
    cbn [fmap option_fmap option_map to_float32].
    rewrite IH; [|lia|lia|rewrite length_insert; lia].
    do 2 f_equal.
    set (n := Z.to_nat (off + i)).
    replace (Z.to_nat (off + (i + 1))) with (S n) by lia.
    assert (Hn : (n < length vs)%nat) by lia.
    rewrite (take_S_r _ _ v) by (by apply list_lookup_insert_eq).
    rewrite take_insert_ge by lia. rewrite drop_insert_lt by lia.
    rewrite <- app_assoc. cbn [app].
    by replace (S n + length vals)%nat with (n + S (length vals))%nat by lia.
Qed.

Lemma capture_col_relayed t nm row c r :
  ColByName t nm = Some c → r.2 = None → fits c row r.1 →
  capture_col t nm row r = Some (set_col t nm (relayed c row r.1)).
Proof.
  intros Hc He Hf. unfold capture_col.
  rewrite Hc, (bool_decide_eq_true_2 _ He).
  destruct c as [cells vs|]; [|done]. destruct Hf as [H0 H1].
  cbn [RowCellSize snd].
  assert (Hm : int_mul row cells = row * cells).
  { unfold int_mul. apply wrap64_small. lia. }
  rewrite Hm, write_from_values by lia.
  unfold relayed. by rewrite Z.add_0_r.
Qed.

Lemma capture_col_skipped t nm row c r :
  ColByName t nm = Some c → r.2 ≠ None → capture_col t nm row r = Some t.
Proof.
  intros Hc He. unfold capture_col.
  by rewrite Hc, (bool_decide_eq_false_2 _ He).
Qed.

(** C6.  If the read of the produced activity fails for one role, the
    capture leaves that role's column as it was, copies the other role's
    activity into that role's column at the presented row, and returns:
    the trial goes on.  If both reads fail the table is unchanged. *)
Theorem failed_read_skips_its_role_only w row motorLay outcomeLay cm co :
  let mr := Lay_UnitVals (Net (ss w)) motorLay "ActP" in
  let or := Lay_UnitVals (Net (ss w)) outcomeLay "ActP" in
  ColByName (ExtReps (ss w)) "Motor" = Some cm →
  ColByName (ExtReps (ss w)) "Outcome" = Some co →
  (mr.2 ≠ None → or.2 = None → fits co row or.1 →
   ∃ sz w', CaptureRelay row motorLay outcomeLay w = Ok sz w' ∧
     ExtReps (ss w') = set_col (ExtReps (ss w)) "Outcome" (relayed co row or.1) ∧
     ColByName (ExtReps (ss w')) "Motor" = Some cm ∧ hist w' = hist w) ∧
  (mr.2 = None → or.2 ≠ None → fits cm row mr.1 →
   ∃ sz w', CaptureRelay row motorLay outcomeLay w = Ok sz w' ∧
     ExtReps (ss w') = set_col (ExtReps (ss w)) "Motor" (relayed cm row mr.1) ∧
     ColByName (ExtReps (ss w')) "Outcome" = Some co ∧ hist w' = hist w) ∧
  (mr.2 ≠ None → or.2 ≠ None →
   ∃ sz w', CaptureRelay row motorLay outcomeLay w = Ok sz w' ∧
     ExtReps (ss w') = ExtReps (ss w) ∧ hist w' = hist w).
Proof.
  intros mr or Hm Ho.
  assert (Hcap : ∀ t1 t2,
    capture_col (ExtReps (ss w)) "Motor" row mr = Some t1 →
    capture_col t1 "Outcome" row or = Some t2 →
    ∃ sz w', CaptureRelay row motorLay outcomeLay w = Ok sz w' ∧
             ExtReps (ss w') = t2 ∧ hist w' = hist w).
  { intros t1 t2 H1 H2.
    destruct (CaptureRelay_total _ _ _ _ _ _ H1 H2) as (b & p & ->).
    by eexists _, _. }
  repeat split.
  - intros Em Eo Hf.
    destruct (Hcap _ _ (capture_col_skipped _ _ row cm mr Hm Em)
                (capture_col_relayed _ _ row co or Ho Eo Hf))
      as (sz & w' & H1 & H2 & H3).
    exists sz, w'. repeat split; try done.
    by rewrite H2, ColByName_set_col_ne.
  - intros Em Eo Hf.
    assert (Ho' : ColByName (set_col (ExtReps (ss w)) "Motor"
                               (relayed cm row mr.1)) "Outcome" = Some co)
      by (by rewrite ColByName_set_col_ne).
    destruct (Hcap _ _ (capture_col_relayed _ _ row cm mr Hm Em Hf)
                (capture_col_skipped _ _ row co or Ho' Eo))
      as (sz & w' & H1 & H2 & H3).
    exists sz, w'. repeat split; try done. by rewrite H2.
  - intros Em Eo.
    destruct (Hcap _ _ (capture_col_skipped _ _ row cm mr Hm Em)
                (capture_col_skipped _ _ row co or Ho Eo))
      as (sz & w' & H1 & H2 & H3).
    by exists sz, w'.
Qed.

End CaptureClaim.
(** * What no trial changes in the pattern table *)

Section Frame.
Context `{C : Collab}.
Implicit Types (w : World) (s : Sim).

Lemma run_trials_frame n : ∀ w w',
  run_trials n w = Ok tt w' →
  NumRows (ExtReps (ss w')) = NumRows (ExtReps (ss w)) ∧
  ColByName (ExtReps (ss w')) "Context" = ColByName (ExtReps (ss w)) "Context" ∧
  ColByName (ExtReps (ss w')) "Goal" = ColByName (ExtReps (ss w)) "Goal".
Proof.
  induction n as [|n IH]; intros w w' H.
  - cbn in H. by injection H as <-.
  - apply run_trials_S in H as (w1 & H1 & H2).
    apply TrainTrial_post in H1.
    destruct H1 as (r0 & r1 & e0 & e1 & e2 & _ & _ & _ & _ & HN & HC & HG & _).
    apply IH in H2. cbn in H2. destruct H2 as (HN' & HC' & HG').
    repeat split; congruence.
Qed.

End Frame.

(** * The claims on concrete runs *)

Lemma after_Some `{C : Collab} {A B} (r : Res A) (f : A → World → B) v :
  after r f = Some v → ∃ a w', r = Ok a w' ∧ f a w' = v.
Proof. destruct r as [a w'|]; [|done]. intros [= <-]. by exists a, w'. Qed.

Lemma panics_Some `{C : Collab} {A} (r : Res A) p :
  panics r = Some p → r = Crash p.
Proof. destruct r; [done|]. by intros [= ->]. Qed.

(** A closed run is evaluated through what is seen of its result. *)
Ltac run_to w' E :=
  lazymatch goal with
  | |- context [?m ?w = Ok _ _] =>
      destruct (after_Some (m w) (λ _ _, tt) tt ltac:(vm_compute; reflexivity))
        as (a & w' & E & _)
  end.

(** C1.  The captured activity stays in the pattern table: the reset of
    sub-phase 1 writes nothing.  On a one-row table whose authored Motor
    value is 0, with a network that produces 0.5 on Motor, the trial
    returns, the epoch ends, and the Motor slot of the presented row
    holds the captured 0.5; so it does after the trial of the next epoch.
    (The sizes of the reset are declared inside the loop of [TrainTrial],
    so they are 0 again in the pass that resets.) *)
Theorem captured_activity_is_never_reset :
  ∃ w1 w2,
    ColByName (ExtReps (ss Ex.relay)) "Motor" = Some (TFloat32 1 [F32.zero]) ∧
    TrainTrial Ex.relay = Ok tt w1 ∧
    Epoch (ss w1) = 1 ∧
    ColByName (ExtReps (ss w1)) "Motor" = Some (TFloat32 1 [F32.half]) ∧
    (TrainTrial ;; TrainTrial) Ex.relay = Ok tt w2 ∧
    Epoch (ss w2) = 2 ∧
    ColByName (ExtReps (ss w2)) "Motor" = Some (TFloat32 1 [F32.half]).
Proof.
  destruct (after_Some (TrainTrial Ex.relay)
              (λ _ w', (Epoch (ss w'), ColByName (ExtReps (ss w')) "Motor")) _
              ltac:(vm_compute; reflexivity)) as ([] & w1 & E1 & [= H1 H2]).
  destruct (after_Some ((TrainTrial ;; TrainTrial) Ex.relay)
              (λ _ w', (Epoch (ss w'), ColByName (ExtReps (ss w')) "Motor")) _
              ltac:(vm_compute; reflexivity)) as ([] & w2 & E2 & [= H3 H4]).
  exists w1, w2. split; [vm_compute; reflexivity|].
  repeat split; assumption.
Qed.

(** C2.  The log row of a completed epoch does not hold the error counts.
    In an epoch of one trial in which both conditions were counted once
    (the percentages logged for the epoch are 1/1), the columns
    OutGoalCntErr and OutPredCntErr hold 0: [LogEpoch] sets the two
    counters to zero before it writes them. *)
Theorem logged_counts_are_zero :
  ∃ w', TrainTrial Ex.relay = Ok tt w' ∧
    Epoch (ss w') = 1 ∧
    ColByName (EpcLog (ss w')) "OutGoalPctErr" = Some (TFloat32 1 [F32.one]) ∧
    ColByName (EpcLog (ss w')) "OutPredPctErr" = Some (TFloat32 1 [F32.one]) ∧
    ColByName (EpcLog (ss w')) "OutGoalCntErr" = Some (TFloat32 1 [F32.zero]) ∧
    ColByName (EpcLog (ss w')) "OutPredCntErr" = Some (TFloat32 1 [F32.zero]).
Proof.
  destruct (after_Some (TrainTrial Ex.relay)
              (λ _ w', (Epoch (ss w'),
                        ColByName (EpcLog (ss w')) "OutGoalPctErr",
                        ColByName (EpcLog (ss w')) "OutPredPctErr",
                        ColByName (EpcLog (ss w')) "OutGoalCntErr",
                        ColByName (EpcLog (ss w')) "OutPredCntErr")) _
              ltac:(vm_compute; reflexivity))
    as ([] & w' & E & [= H1 H2 H3 H4 H5]).
  exists w'. repeat split; assumption.
Qed.

(** C3.  A Goal layer with more units than the Outcome layer ends the
    trial with a panic: after the warning the loop over Goal's units
    indexes Outcome's units out of range.  With fewer Goal units the
    warning is printed and the statistics are returned. *)
Theorem wider_goal_aborts_trial :
  TrialStats true Ex.goal_wider = Crash IndexOutOfRange ∧
  TrainTrial Ex.goal_wider = Crash IndexOutOfRange ∧
  ∃ res w', TrialStats true Ex.outcome_wider = Ok res w' ∧
    hist w' = [EvPrintln msg_units_mismatch; EvTrialStats 0 res].
Proof.
  split; [apply panics_Some; vm_compute; reflexivity|].
  split; [apply panics_Some; vm_compute; reflexivity|].
  destruct (after_Some (TrialStats true Ex.outcome_wider)
              (λ res w', (res, hist w')) _ ltac:(vm_compute; reflexivity))
    as (res & w' & E & [= H1 H2]).
  exists res, w'. split; [exact E|]. by rewrite H2, H1.
Qed.

(** C9.  When the pattern file cannot be opened the error is printed and
    [Init] goes on with an empty table and an empty presentation order;
    the first trial then panics: [Porder[Trial]] is out of range, and in
    sequential mode the column of the Context layer is missing. *)
Theorem empty_store_aborts_trial :
  (∃ w', (OpenExtReps ;; Init) (Ex.blank false) = Ok tt w' ∧
     hist w' = [EvPrintln "open goal-guy-0-5x5-25-gen.dat: no such file or directory";
                EvStyleParams; EvInitWts] ∧
     NumRows (ExtReps (ss w')) = 0 ∧ Porder (ss w') = []) ∧
  (OpenExtReps ;; Init ;; TrainTrial) (Ex.blank false) = Crash IndexOutOfRange ∧
  (OpenExtReps ;; Init ;; TrainTrial) (Ex.blank true) = Crash NilConversion.
Proof.
  split; [|split; apply panics_Some; vm_compute; reflexivity].
  destruct (after_Some ((OpenExtReps ;; Init) (Ex.blank false))
              (λ _ w', (hist w', NumRows (ExtReps (ss w')), Porder (ss w'))) _
              ltac:(vm_compute; reflexivity))
    as ([] & w' & E & [= H1 H2 H3]).
  exists w'. repeat split; assumption.
Qed.

(** C4.  The OutSSE of an epoch is not always the mean of its trials:
    [Init] leaves the running sums as they are.  After [Init], one trial
    of two, and [Init] again, the run is at epoch 0, trial 0, with an
    empty log and the running sum at 1; the epoch that follows has two
    trials of outcome SSE 1 each, and its log row holds 3/2, not 2/2. *)
Theorem stale_sum_enters_epoch_mean :
  ∃ w0 w',
    (Init ;; TrainTrial ;; Init) Ex.pair = Ok tt w0 ∧
    Epoch (ss w0) = 0 ∧ Trial (ss w0) = 0 ∧ NumRows (EpcLog (ss w0)) = 0 ∧
    OutSumSSE (Sum (ss w0)) = F32.one ∧
    (Init ;; TrainTrial ;; Init ;; TrainEpoch 2) Ex.pair = Ok tt w' ∧
    Epoch (ss w') = 1 ∧ NumRows (ExtReps (ss w')) = 2 ∧
    osses (hist w') = osses (hist w0) ++ [F32.one; F32.one] ∧
    ColByName (EpcLog (ss w')) "OutSSE" = Some (TFloat32 1 [Ex.three_halves]) ∧
    F32.div (sum32 F32.zero [F32.one; F32.one]) (F32.of_int 2) = F32.one ∧
    F32.eqb Ex.three_halves F32.one = false.
Proof.
  destruct (after_Some ((Init ;; TrainTrial ;; Init) Ex.pair)
              (λ _ w, (Epoch (ss w), Trial (ss w), NumRows (EpcLog (ss w)),
                       OutSumSSE (Sum (ss w)), osses (hist w))) _
              ltac:(vm_compute; reflexivity))
    as ([] & w0 & E0 & [= H1 H2 H3 H4 H5]).
  destruct (after_Some ((Init ;; TrainTrial ;; Init ;; TrainEpoch 2) Ex.pair)
              (λ _ w, (Epoch (ss w), NumRows (ExtReps (ss w)), osses (hist w),
                       ColByName (EpcLog (ss w)) "OutSSE")) _
              ltac:(vm_compute; reflexivity))
    as ([] & w' & E & [= H6 H7 H8 H9]).
  exists w0, w'. rewrite H5, H8.
  repeat split; assumption || (vm_compute; reflexivity).
Qed.

(** C8.  Two runs with the same seed and the same [MaxEpcs] need not
    give the same epoch log.  The first run is [Init] and [Train] on the
    fresh [Sim]; the second is [Init] and [Train] after an earlier
    [Init] and one trial.  Both start from seed 1 with [MaxEpcs] 2 and
    make the same calls in the same order, so they present the rows in
    the same order and compute the same statistics trial by trial; but
    the first row of the log holds OutSSE 1 in the first run and 3/2 in
    the second. *)
Theorem same_seed_different_logs :
  ∃ w0 wa wb,
    (Init ;; TrainTrial) Ex.pair = Ok tt w0 ∧
    RndSeed (ss w0) = RndSeed (ss Ex.pair) ∧ MaxEpcs (ss w0) = MaxEpcs (ss Ex.pair) ∧
    (Init ;; Train 4) Ex.pair = Ok tt wa ∧
    (Init ;; TrainTrial ;; Init ;; Train 4) Ex.pair = Ok tt wb ∧
    hist wb = hist w0 ++ hist wa ∧
    Epoch (ss wa) = 2 ∧ Epoch (ss wb) = 2 ∧
    ColByName (EpcLog (ss wa)) "OutSSE" = Some (TFloat32 1 [F32.one; F32.one]) ∧
    ColByName (EpcLog (ss wb)) "OutSSE"
      = Some (TFloat32 1 [Ex.three_halves; F32.one]).
Proof.
  destruct (after_Some ((Init ;; TrainTrial) Ex.pair)
              (λ _ w, (RndSeed (ss w), MaxEpcs (ss w), hist w)) _
              ltac:(vm_compute; reflexivity))
    as ([] & w0 & E0 & [= H1 H2 H3]).
  destruct (after_Some ((Init ;; Train 4) Ex.pair)
              (λ _ w, (hist w, Epoch (ss w), 
                       ColByName (EpcLog (ss w)) "OutSSE")) _
              ltac:(vm_compute; reflexivity))
    as ([] & wa & Ea & [= H4 H5 H6]).
  destruct (after_Some ((Init ;; TrainTrial ;; Init ;; Train 4) Ex.pair)
              (λ _ w, (hist w, Epoch (ss w), 
                       ColByName (EpcLog (ss w)) "OutSSE")) _
              ltac:(vm_compute; reflexivity))
    as ([] & wb & Eb & [= H7 H8 H9]).
  exists w0, wa, wb. rewrite H3, H4, H7.
  repeat split; assumption || (vm_compute; reflexivity).
Qed.

(** * The theorems at concrete runs *)

Lemma mismatch_counted_once_per_trial_witness :
  ∃ res w', TrialStats true Ex.two_off = Ok res w' ∧
    OutGoalCntErr (Sum (ss w')) = 1.
Proof.
  run_to w' E. rename a into res.
  exists res, w'. split; [exact E|].
  rewrite (proj1 (mismatch_counted_once_per_trial Ex.two_off res w' eq_refl E)).
  vm_compute. reflexivity.
Defined.

Lemma stop_waits_for_trial_end_witness :
  ∃ w' w'', TrainTrial Ex.relay = Ok tt w' ∧
    TrainTrial (set_pending (Some 20%nat) Ex.relay) = Ok tt w'' ∧
    hist w'' = hist w'.
Proof.
  run_to w' E. destruct a.
  destruct (stop_waits_for_trial_end Ex.relay w' 20 E) as (w'' & H1 & H2 & _).
  exists w', w''. repeat split; assumption.
Defined.

Lemma learning_in_both_subphases_witness :
  ∃ w' w'', TrainTrial Ex.relay = Ok tt w' ∧
    Toy.updates (Net (ss w')) = 4 ∧
    TrainTrial (set_ss (set_Test true (ss Ex.relay)) Ex.relay) = Ok tt w'' ∧
    hist w'' = hist w' ∧ Net (ss w'') = Net (ss w').
Proof.
  destruct (after_Some (TrainTrial Ex.relay)
              (λ _ w', Toy.updates (Net (ss w'))) _
              ltac:(vm_compute; reflexivity)) as ([] & w' & E & H).
  destruct (proj2 (learning_in_both_subphases Ex.relay w' E) true)
    as (w'' & H1 & H2 & H3 & _).
  exists w', w''. repeat split; assumption.
Defined.

Lemma failed_read_skips_its_role_only_witness :
  ∃ sz w', CaptureRelay 0 "Motor" "Outcome" Ex.motor_mute = Ok sz w' ∧
    ExtReps (ss w') =
      set_col (ExtReps (ss Ex.motor_mute)) "Outcome"
        (relayed (TFloat32 1 [F32.one]) 0 [F32.half]) ∧
    ColByName (ExtReps (ss w')) "Motor" = Some (TFloat32 1 [F32.zero]) ∧
    hist w' = hist Ex.motor_mute.
Proof.
  apply (proj1 (failed_read_skips_its_role_only Ex.motor_mute 0
                  "Motor" "Outcome" (TFloat32 1 [F32.zero])
                  (TFloat32 1 [F32.one]) eq_refl eq_refl)).
  - vm_compute. discriminate.
  - reflexivity.
  - by vm_compute.
Defined.
